(** * The Exchange downloader of the RAML toolkit

    A shallow embedding of [src/download/exchangeDownloader.ts]: the JSON
    values it reads, the world it acts on (registry, file system, warning
    log), its nine functions, and the properties of them. *)

From stdpp Require Import gmap strings list pretty.

Set Warnings "-register-all".
Local Open Scope string_scope.
Local Open Scope Z_scope.

(** ** JavaScript values as the module sees them *)

Module JS.

(** What [res.json()] can produce, plus [undefined].  A number is kept as
    the string that Number::toString gives for it ([7], [-1.5], [1e+21]);
    JSON has no NaN and no infinity, and both zeros read [0].  An object is
    the list of its members in the order of the JSON text. *)
Inductive value : Type :=
| VUndefined
| VNull
| VBool (b : bool)
| VNum (digits : string)
| VStr (s : string)
| VArr (elems : list value)
| VObj (props : list (string * value)).

(** ToBoolean: what [!x], [x && y], [x || y] and [x ? a : b] look at. *)
Definition truthy (v : value) : bool :=
  match v with
  | VUndefined | VNull => false
  | VBool b => b
  | VNum digits => negb (String.eqb digits "0")
  | VStr s => negb (String.eqb s "")
  | VArr _ | VObj _ => true
  end.

Definition nullish (v : value) : bool :=
  match v with
  | VUndefined | VNull => true
  | _ => false
  end.

(** [x === "literal"]: only a string with the same characters. *)
Definition strict_eq_str (v : value) (s : string) : bool :=
  match v with
  | VStr s' => String.eqb s' s
  | _ => false
  end.

(** The member a key denotes; a key repeated in the JSON text keeps its
    last value. *)
Fixpoint member (k : string) (props : list (string * value)) : option value :=
  match props with
  | [] => None
  | (k', v) :: rest =>
      match member k rest with
      | Some v' => Some v'
      | None => if String.eqb k' k then Some v else None
      end
  end.

(** The errors the module can meet. *)
Inductive error : Type :=
| TypeError (msg : string)
| SyntaxError (msg : string)
| FetchError (msg : string)
| SystemError (code : string) (path : string).

Inductive outcome (A : Type) : Type :=
| Ok (a : A)
| Throw (e : error).
Arguments Ok {A} a.
Arguments Throw {A} e.

(** ToString (and ToPropertyKey, which is the same on these values) of a
    value that came out of [JSON.parse].  An array is joined as
    [Array.prototype.join] does, element by element.  An object inherits
    [Object.prototype.toString] and reads [[object Object]], unless it has a
    member [toString] of its own: a member of parsed JSON is never a
    function and [valueOf] gives back the object, so the conversion
    throws. *)
Fixpoint ToString (v : value) : outcome string :=
  match v with
  | VUndefined => Ok "undefined"
  | VNull => Ok "null"
  | VBool true => Ok "true"
  | VBool false => Ok "false"
  | VNum digits => Ok digits
  | VStr s => Ok s
  | VArr elems =>
      match
        (fix each (l : list value) : outcome (list string) :=
           match l with
           | [] => Ok []
           | e :: rest =>
               match (if nullish e then Ok "" else ToString e) with
               | Throw x => Throw x
               | Ok s =>
                   match each rest with
                   | Throw x => Throw x
                   | Ok ss => Ok (s :: ss)
                   end
               end
           end) elems
      with
      | Throw x => Throw x
      | Ok parts => Ok (String.concat "," parts)
      end
  | VObj props =>
      match member "toString" props with
      | Some _ => Throw (TypeError "Cannot convert object to primitive value")
      | None => Ok "[object Object]"
      end
  end.

(** The string that a template literal [`${x}`] makes of a field or a
    parameter that the types declare a [string]; on every value that
    [ToString] converts it is the string [ToString] gives. *)
Fixpoint to_string (v : value) : string :=
  match v with
  | VUndefined => "undefined"
  | VNull => "null"
  | VBool true => "true"
  | VBool false => "false"
  | VNum digits => digits
  | VStr s => s
  | VArr elems =>
      String.concat ","
        (map (fun e => if nullish e then "" else to_string e) elems)
  | VObj _ => "[object Object]"
  end.

(** [v[k]] for the literal keys the module reads ([id], [name], [files],
    [classifier], ...): none of them names a property that an array, a
    string, a number or a boolean inherits, so only an object can answer with
    something else than [undefined]; reading from [undefined] or [null]
    throws. *)
Definition get (v : value) (k : string) : outcome value :=
  match v with
  | VUndefined | VNull =>
      Throw (TypeError ("Cannot read properties of " ++ to_string v
                        ++ " (reading '" ++ k ++ "')"))
  | VObj props => Ok (default VUndefined (member k props))
  | _ => Ok VUndefined
  end.

(** [v.forEach]: present on arrays only. *)
Definition array_items (v : value) : outcome (list value) :=
  match v with
  | VArr elems => Ok elems
  | VUndefined | VNull =>
      Throw (TypeError ("Cannot read properties of " ++ to_string v
                        ++ " (reading 'forEach')"))
  | _ => Throw (TypeError "forEach is not a function")
  end.

(** A regular expression object: what its pattern finds in a string when
    the search starts at a position (the position where the match ends, as
    RegExpBuiltinExec computes it; nothing is found from a position past the
    end of the string), whether it has the [g] or the [y] flag, and its
    [lastIndex]. *)
Record RegExp : Type := {
  matcher : string -> nat -> option nat;
  global_or_sticky : bool;
  lastIndex : nat
}.

Definition set_lastIndex (i : nat) (re : RegExp) : RegExp :=
  {| matcher := matcher re; global_or_sticky := global_or_sticky re;
     lastIndex := i |}.

(** [re.test(s)] on a string: without the [g] and [y] flags the search
    starts at 0 and [lastIndex] is left alone; with one of them it starts at
    [lastIndex], which then moves to the end of the match, or back to 0 when
    nothing is found. *)
Definition test (re : RegExp) (s : string) : bool * RegExp :=
  if global_or_sticky re then
    match matcher re s (lastIndex re) with
    | Some e => (true, set_lastIndex e re)
    | None => (false, set_lastIndex 0%nat re)
    end
  else (bool_decide (is_Some (matcher re s 0%nat)), re).

End JS.
Export JS.

(** ** The world: registry, file system, warning log *)

Definition bytes : Type := list Byte.byte.

(** A [node-fetch] response, by what the module asks of it. *)
Record Response : Type := {
  res_status : Z;
  res_statusText : string;
  res_json : outcome value;        (* what [res.json()] settles to *)
  res_arrayBuffer : outcome bytes  (* what [res.arrayBuffer()] settles to *)
}.

(** [res.ok]: a status in the range 200-299. *)
Definition res_ok (res : Response) : bool :=
  (200 <=? res_status res) && (res_status res <? 300).

(** A GET request: its URL and its [Authorization] header, if any. *)
Record Request : Type := {
  req_url : string;
  req_authorization : option string
}.

Record World : Type := {
  net : nat -> Request -> outcome Response;  (* what the n-th request meets *)
  requests : list Request;                   (* requests sent, oldest first *)
  dirs : gset string;
  files : gmap string bytes;
  warnings : list (string * string)          (* (message, hint), oldest first *)
}.

(** [path] of Node: the two operations on path names that matter here. *)
Class Platform : Type := {
  path_join : string -> string -> string;
  path_parents : string -> list string  (* the directories a path goes through *)
}.

(** Computations that read and change the world and may throw. *)
Definition M (A : Type) : Type := World -> outcome A * World.

Definition ret {A} (a : A) : M A := fun w => (Ok a, w).

Definition bind {A B} (c : M A) (k : A -> M B) : M B :=
  fun w =>
    match c w with
    | (Ok a, w') => k a w'
    | (Throw e, w') => (Throw e, w')
    end.

(** A value or an exception that owes nothing to the world. *)
Definition lift {A} (o : outcome A) : M A := fun w => (o, w).

Notation "'let*' x ':=' c 'in' k" := (bind c (fun x => k))
  (at level 10, x name, c at level 100, k at level 200).
Notation "c ';;' k" := (bind c (fun _ => k))
  (at level 100, k at level 200, right associativity).

(** The same for code that only computes and may throw. *)
Definition obind {A B} (o : outcome A) (k : A -> outcome B) : outcome B :=
  match o with
  | Ok a => k a
  | Throw e => Throw e
  end.

Notation "'let?' x ':=' o 'in' k" := (obind o (fun x => k))
  (at level 10, x name, o at level 100, k at level 200).

(** [array.forEach(x => { acc = f(acc, x) })]: left to right, stopping at the
    first exception. *)
Fixpoint forEach {A S} (f : S -> A -> outcome S) (l : list A) (acc : S)
  : outcome S :=
  match l with
  | [] => Ok acc
  | x :: rest => let? acc' := f acc x in forEach f rest acc'
  end.

Definition set_requests (l : list Request) (w : World) : World :=
  {| net := net w; requests := l; dirs := dirs w; files := files w;
     warnings := warnings w |}.

Definition set_dirs (d : gset string) (w : World) : World :=
  {| net := net w; requests := requests w; dirs := d; files := files w;
     warnings := warnings w |}.

Definition set_files (f : gmap string bytes) (w : World) : World :=
  {| net := net w; requests := requests w; dirs := dirs w; files := f;
     warnings := warnings w |}.

Definition set_warnings (l : list (string * string)) (w : World) : World :=
  {| net := net w; requests := requests w; dirs := dirs w; files := files w;
     warnings := l |}.

(** [fetch(url, { headers })] of node-fetch: the request leaves and the
    promise is fulfilled with the response, whatever its status; it is
    rejected only when no response comes (a bad URL, a network failure). *)
Definition fetch (url : string) (authorization : option string)
  : M Response :=
  fun w =>
    let req := {| req_url := url; req_authorization := authorization |} in
    (net w (length (requests w)) req, set_requests (requests w ++ [req])%list w).

(** Modelled from the spec: [ramlToolLogger] of [common/logger], which is
    not among the sources; "a warning-level channel accepting a short message
    plus a remediation hint string".  [ramlToolLogger.warn(message, hint)]
    records the pair. *)
Definition warn (message hint : string) : M unit :=
  fun w => (Ok tt, set_warnings (warnings w ++ [(message, hint)])%list w).

Definition is_file (w : World) (p : string) : bool :=
  bool_decide (is_Some (files w !! p)).

Definition is_dir (w : World) (p : string) : bool :=
  bool_decide (p ∈ dirs w).

Section FileSystem.
Context {platform : Platform}.

(** [ensureDirSync(dir)] of fs-extra: the directory and the directories
    above it exist afterwards; a regular file in the way is an error. *)
Definition ensureDirSync (dir : string) : M unit :=
  fun w =>
    if is_file w dir then (Throw (SystemError "EEXIST" dir), w)
    else if existsb (is_file w) (path_parents dir)
    then (Throw (SystemError "ENOTDIR" dir), w)
    else (Ok tt, set_dirs (dirs w ∪ list_to_set (dir :: path_parents dir)) w).

(** [writeFileSync(file, data)]: creates the file or replaces its content;
    the directories above it must exist. *)
Definition writeFileSync (file : string) (data : bytes) : M unit :=
  fun w =>
    if is_dir w file then (Throw (SystemError "EISDIR" file), w)
    else if forallb (is_dir w) (path_parents file)
    then (Ok tt, set_files (<[file := data]> (files w)) w)
    else (Throw (SystemError "ENOENT" file), w).

End FileSystem.

(** ** exchangeTypes.ts *)

(** Modelled from the spec: the declarations of [exchangeTypes.ts], which is
    not among the sources.  [FileInfo] is the spec's ArchiveFileInfo, with
    the seven fields that [getFileByClassifier] fills in; a field holds
    whatever the registry sent. *)
Module FileInfo.
Record t : Type := {
  classifier : value;
  packaging : value;
  externalLink : value;
  createdDate : value;
  md5 : value;
  sha1 : value;
  mainFile : value
}.
End FileInfo.

(** The [[Prototype]] of a plain object: [Object.prototype], as the literal
    [{}] has it, or what an assignment to [__proto__] made of it. *)
Inductive Prototype : Type :=
| ObjectPrototype
| NullPrototype
| JsonPrototype (v : value).  (* an object or an array out of the response *)

(** Modelled from the spec: [Categories] of [exchangeTypes.ts], "a mapping
    of category-name to category-value (insertion order irrelevant, keys
    unique)": the object that [mapCategories] fills, by its own properties
    and its prototype. *)
Record Categories : Type := {
  own : gmap string value;
  prototype : Prototype
}.

(** Modelled from the spec: [RestApi] of [exchangeTypes.ts], the spec's
    AssetDescriptor, with the nine fields that [convertResponseToRestApi]
    fills in. *)
Module RestApi.
Record t : Type := {
  id : value;
  name : value;
  description : value;
  updatedDate : value;
  groupId : value;
  assetId : value;
  version : value;
  categories : Categories;
  fatRaml : option FileInfo.t  (* [None]: the field holds [undefined] *)
}.
End RestApi.

(** ** exchangeDownloader.ts: reading the registry's answers *)

Definition DEFAULT_DOWNLOAD_FOLDER : string := "download".
Definition ANYPOINT_BASE_URI : string :=
  "https://anypoint.mulesoft.com/exchange/api/v2".
Definition ANYPOINT_BASE_URI_WITHOUT_VERSION : string :=
  "https://anypoint.mulesoft.com/exchange".

(** Whether an assignment to [__proto__] that finds no such property on
    the object itself finds one to write to before it reaches the setter of
    [Object.prototype]: the chain has ended, or the prototype is an object of
    the response with a member [__proto__] of its own. *)
Definition shadows_proto_setter (p : Prototype) : bool :=
  match p with
  | ObjectPrototype => false
  | NullPrototype => true
  | JsonPrototype (VObj props) => bool_decide (is_Some (member "__proto__" props))
  | JsonPrototype _ => false
  end.

(** [cats[k] = v] on an object that began as [{}].  Any name but
    [__proto__] becomes or stays a property of the object.  [__proto__] does
    so only where the setter of [Object.prototype] is out of reach; the
    setter makes an object, an array or [null] the prototype and ignores any
    other value. *)
Definition assign (cats : Categories) (k : string) (v : value) : Categories :=
  if negb (String.eqb k "__proto__")
     || bool_decide (is_Some (own cats !! k))
     || shadows_proto_setter (prototype cats)
  then {| own := <[k := v]> (own cats); prototype := prototype cats |}
  else
    match v with
    | VObj _ | VArr _ => {| own := own cats; prototype := JsonPrototype v |}
    | VNull => {| own := own cats; prototype := NullPrototype |}
    | _ => cats
    end.

Definition mapCategories (categories : value) : outcome Categories :=
  let? entries := array_items categories in
  forEach
    (fun (cats : Categories) category =>
       let? k := get category "key" in
       let? v := get category "value" in
       let? name := ToString k in
       Ok (assign cats name v))
    entries {| own := ∅; prototype := ObjectPrototype |}.

Definition getFileByClassifier (files : value) (classifier : string)
  : outcome (option FileInfo.t) :=
  let? entries := array_items files in
  forEach
    (fun (myFile : option FileInfo.t) file =>
       let? c := get file "classifier" in
       if strict_eq_str c classifier then
         let? c := get file "classifier" in
         let? p := get file "packaging" in
         let? l := get file "externalLink" in
         let? d := get file "createdDate" in
         let? m := get file "md5" in
         let? s := get file "sha1" in
         let? f := get file "mainFile" in
         Ok (Some {| FileInfo.classifier := c; FileInfo.packaging := p;
                     FileInfo.externalLink := l; FileInfo.createdDate := d;
                     FileInfo.md5 := m; FileInfo.sha1 := s;
                     FileInfo.mainFile := f |})
       else Ok myFile)
    entries None.

Definition convertResponseToRestApi (apiResponse : value)
  : outcome RestApi.t :=
  let? i := get apiResponse "id" in
  let? n := get apiResponse "name" in
  let? d := get apiResponse "description" in
  let? u := get apiResponse "updatedDate" in
  let? g := get apiResponse "groupId" in
  let? a := get apiResponse "assetId" in
  let? v := get apiResponse "version" in
  let? cs := get apiResponse "categories" in
  let? cats := mapCategories cs in
  let? fs := get apiResponse "files" in
  let? fat := getFileByClassifier fs "fat-raml" in
  Ok {| RestApi.id := i; RestApi.name := n; RestApi.description := d;
        RestApi.updatedDate := u; RestApi.groupId := g; RestApi.assetId := a;
        RestApi.version := v; RestApi.categories := cats;
        RestApi.fatRaml := fat |}.

(** The result is [VUndefined] where the source returns nothing. *)
Definition getAsset (accessToken assetId : string) : M value :=
  let* res := fetch (ANYPOINT_BASE_URI ++ "/assets/" ++ assetId)
                    (Some ("Bearer " ++ accessToken)) in
  if negb (res_ok res) then
    warn ("Failed to get information about " ++ assetId
          ++ " from exchange: " ++ pretty (res_status res) ++ " - "
          ++ res_statusText res)
         ("Please get it manually from " ++ ANYPOINT_BASE_URI ++ "/assets/"
          ++ assetId
          ++ " and update the relevant details in apis/api-config.json");;
    ret VUndefined
  else lift (res_json res).

Definition searchExchange (accessToken searchString : string)
  : M (list RestApi.t) :=
  let* res := fetch (ANYPOINT_BASE_URI ++ "/assets?search=" ++ searchString)
                    (Some ("Bearer " ++ accessToken)) in
  let* restApis := lift (res_json res) in
  lift (let? entries := array_items restApis in
        forEach
          (fun (apis : list RestApi.t) restApi =>
             let? api := convertResponseToRestApi restApi in
             Ok (apis ++ [api])%list)
          entries []).

(** The callback of the scan over [asset["instances"]]; [version] is the
    variable it assigns, and [deployment] the regular expression, which
    [test] may leave at another [lastIndex]. *)
Definition scanInstance (scan : value * RegExp) (instance : value)
  : outcome (value * RegExp) :=
  let (version, deployment) := scan in
  let? env := get instance "environmentName" in
  if truthy env then
    let? s := ToString env in
    let (found, deployment) := test deployment s in
    if found && negb (truthy version) then
      let? v := get instance "version" in Ok (v, deployment)
    else Ok (version, deployment)
  else Ok (version, deployment).

(** Lines 175-189: the scan over the instances of the fetched asset and
    the fallback to the asset's own version. *)
Definition pickVersion (deployment : RegExp) (asset : value)
  : outcome value :=
  let? instances := get asset "instances" in
  let? entries := array_items instances in
  let? scan := forEach scanInstance entries (VNull, deployment) in
  if truthy scan.1 then Ok scan.1 else get asset "version".

Definition getVersionByDeployment (accessToken : string)
    (restApi : RestApi.t) (deployment : RegExp) : M value :=
  let* asset := getAsset accessToken
                  (to_string (RestApi.groupId restApi) ++ "/"
                   ++ to_string (RestApi.assetId restApi)) in
  if negb (truthy asset) then ret VUndefined
  else lift (pickVersion deployment asset).

(** What a function declared to return a promise really hands back. *)
Inductive PromiseOr (A : Type) : Type :=
| NotAPromise (a : A)
| APromise (p : M A).
Arguments NotAPromise {A} a.
Arguments APromise {A} p.

(** [await x]: a value that is no promise is its own result. *)
Definition await {A} (x : PromiseOr A) : M A :=
  match x with
  | NotAPromise a => ret a
  | APromise p => p
  end.

(** [None] is the source's [null]. *)
Definition getSpecificApi (accessToken groupId assetId : string)
    (version : value) : PromiseOr (option RestApi.t) :=
  if truthy version then
    APromise
      (let* api := getAsset accessToken
                     (groupId ++ "/" ++ assetId ++ "/" ++ to_string version) in
       if truthy api then
         let* r := lift (convertResponseToRestApi api) in ret (Some r)
       else ret None)
  else NotAPromise None.

(** ** exchangeDownloader.ts: downloading *)

(** [restApi.fatRaml.externalLink] *)
Definition fatRaml_externalLink (restApi : RestApi.t) : outcome value :=
  match RestApi.fatRaml restApi with
  | Some fatRaml => Ok (FileInfo.externalLink fatRaml)
  | None =>
      Throw (TypeError
               "Cannot read properties of undefined (reading 'externalLink')")
  end.

Definition missing_id_message (restApi : RestApi.t) : string :=
  "Failed to download '" ++ to_string (RestApi.name restApi)
  ++ "' RAML as Fat RAML download information is missing.".

Definition manual_download_url (restApi : RestApi.t) : string :=
  ANYPOINT_BASE_URI_WITHOUT_VERSION ++ "/"
  ++ to_string (RestApi.groupId restApi) ++ "/"
  ++ to_string (RestApi.assetId restApi).

Definition missing_id_hint (restApi : RestApi.t) : string :=
  "Please download it manually from " ++ manual_download_url restApi
  ++ " and update the relevant details in apis/api-config.json".

(** A promise of [downloadRestApi]: settled, or suspended at one of the two
    [await]s with what it will wake up to. *)
Inductive Download : Type :=
| Settled (result : outcome (option Response))
| AwaitFetch (zipFilePath : string) (pending : outcome Response)
| AwaitArrayBuffer (zipFilePath : string) (response : Response).

Inductive PromiseState (A : Type) : Type :=
| Pending
| Fulfilled (a : A)
| Rejected (e : error).
Arguments Pending {A}.
Arguments Fulfilled {A} a.
Arguments Rejected {A} e.

Section Downloading.
Context {platform : Platform}.

(** One call, awaited by its caller with nothing else in flight.
    [destinationFolder = None] is the omitted argument. *)
Definition downloadRestApi (restApi : RestApi.t)
    (destinationFolder : option string) : M (option Response) :=
  let destinationFolder := default DEFAULT_DOWNLOAD_FOLDER destinationFolder in
  if negb (truthy (RestApi.id restApi)) then
    warn (missing_id_message restApi) (missing_id_hint restApi);;
    ret None
  else
    ensureDirSync destinationFolder;;
    let zipFilePath :=
      path_join destinationFolder
                (to_string (RestApi.assetId restApi) ++ ".zip") in
    let* link := lift (fatRaml_externalLink restApi) in
    let* response := fetch (to_string link) None in
    let* arrayBuffer := lift (res_arrayBuffer response) in
    writeFileSync zipFilePath arrayBuffer;;
    ret (Some response).

(** The same call as the event loop sees it: the body runs up to the first
    [await] and hands back its promise. *)
Definition downloadRestApi_call (restApi : RestApi.t)
    (destinationFolder : string) (w : World) : Download * World :=
  if negb (truthy (RestApi.id restApi)) then
    let (_, w1) := warn (missing_id_message restApi)
                        (missing_id_hint restApi) w in
    (Settled (Ok None), w1)
  else
    match ensureDirSync destinationFolder w with
    | (Throw e, w1) => (Settled (Throw e), w1)
    | (Ok _, w1) =>
        let zipFilePath :=
          path_join destinationFolder
                    (to_string (RestApi.assetId restApi) ++ ".zip") in
        match fatRaml_externalLink restApi with
        | Throw e => (Settled (Throw e), w1)
        | Ok link =>
            let (pending, w2) := fetch (to_string link) None w1 in
            (AwaitFetch zipFilePath pending, w2)
        end
    end.

(** The event loop wakes a suspended call: it runs to its next [await] or
    to its end. *)
Definition resume (d : Download) (w : World) : Download * World :=
  match d with
  | Settled _ => (d, w)
  | AwaitFetch zipFilePath (Throw e) => (Settled (Throw e), w)
  | AwaitFetch zipFilePath (Ok response) =>
      (AwaitArrayBuffer zipFilePath response, w)
  | AwaitArrayBuffer zipFilePath response =>
      match res_arrayBuffer response with
      | Throw e => (Settled (Throw e), w)
      | Ok arrayBuffer =>
          match writeFileSync zipFilePath arrayBuffer w with
          | (Throw e, w1) => (Settled (Throw e), w1)
          | (Ok _, w1) => (Settled (Ok (Some response)), w1)
          end
      end
  end.

(** [restApi.forEach(api => promises.push(downloadRestApi(api, folder)))] *)
Fixpoint launch (restApi : list RestApi.t) (destinationFolder : string)
    (w : World) : list Download * World :=
  match restApi with
  | [] => ([], w)
  | api :: rest =>
      let (d, w1) := downloadRestApi_call api destinationFolder w in
      let (ds, w2) := launch rest destinationFolder w1 in
      (d :: ds, w2)
  end.

(** The first promise of the array found rejected, if any. *)
Fixpoint first_rejection (promises : list Download) : option error :=
  match promises with
  | [] => None
  | Settled (Throw e) :: _ => Some e
  | _ :: rest => first_rejection rest
  end.

Definition fulfilled (d : Download) : bool :=
  match d with
  | Settled (Ok _) => true
  | _ => false
  end.

Definition settled (d : Download) : bool :=
  match d with
  | Settled _ => true
  | _ => false
  end.

(** The promises in flight, the rejection [Promise.all] has settled on (the
    first one it was told of), and the world. *)
Record Run : Type := {
  promises : list Download;
  rejection : option error;
  world : World
}.

(** The event loop wakes promise number [i]. *)
Definition wake (r : Run) (i : nat) : Run :=
  match promises r !! i with
  | None => r
  | Some d =>
      let (d', w') := resume d (world r) in
      {| promises := <[i := d']> (promises r);
         rejection :=
           match rejection r, d' with
           | None, Settled (Throw e) => Some e
           | known, _ => known
           end;
         world := w' |}
  end.

(** [Promise.all(promises).then(() => destinationFolder)] *)
Definition all_then (r : Run) (destinationFolder : string)
  : PromiseState string :=
  match rejection r with
  | Some e => Rejected e
  | None =>
      if forallb fulfilled (promises r) then Fulfilled destinationFolder
      else Pending
  end.

(** [schedule] is the order in which the event loop wakes the suspended
    downloads after the call has returned; the result is the state of the
    returned promise, and the world, once it has done so. *)
Definition downloadRestApis_run (restApi : list RestApi.t)
    (destinationFolder : option string) (schedule : list nat) (w : World)
  : Run :=
  let destinationFolder := default DEFAULT_DOWNLOAD_FOLDER destinationFolder in
  let (ps, w1) := launch restApi destinationFolder w in
  fold_left wake schedule
            {| promises := ps; rejection := first_rejection ps; world := w1 |}.

Definition downloadRestApis (restApi : list RestApi.t)
    (destinationFolder : option string) (schedule : list nat) (w : World)
  : PromiseState string * World :=
  let r := downloadRestApis_run restApi destinationFolder schedule w in
  (all_then r (default DEFAULT_DOWNLOAD_FOLDER destinationFolder), world r).

End Downloading.

(** ** Vocabulary of the statements *)

(** [v[k]] where the read cannot throw. *)
Definition field (v : value) (k : string) : value :=
  match v with
  | VObj props => default VUndefined (member k props)
  | _ => VUndefined
  end.

(** The [FileInfo] that [getFileByClassifier] builds from a file entry. *)
Definition fileInfo_of (file : value) : FileInfo.t :=
  {| FileInfo.classifier := field file "classifier";
     FileInfo.packaging := field file "packaging";
     FileInfo.externalLink := field file "externalLink";
     FileInfo.createdDate := field file "createdDate";
     FileInfo.md5 := field file "md5";
     FileInfo.sha1 := field file "sha1";
     FileInfo.mainFile := field file "mainFile" |}.

Definition has_classifier (classifier : string) (file : value) : bool :=
  strict_eq_str (field file "classifier") classifier.

(** The value can be made a string. *)
Definition stringifies (v : value) : bool :=
  match ToString v with
  | Ok _ => true
  | Throw _ => false
  end.

(** The name under which a category pair is filed, if its key can be made
    one. *)
Definition key_of (category : value) : option string :=
  match ToString (field category "key") with
  | Ok name => Some name
  | Throw _ => None
  end.

Definition has_key (k : string) (category : value) : bool :=
  bool_decide (key_of category = Some k).

(** Every element can be read from: none is [null] or [undefined]. *)
Definition readable (l : list value) : Prop :=
  Forall (fun v => nullish v = false) l.

(** Every element can be read from and has a key that can be made a
    string. *)
Definition keyed (l : list value) : Prop :=
  Forall (fun c => nullish c = false /\ stringifies (field c "key") = true) l.

(** Every element can be read from and has an environment name that is
    empty or can be made a string. *)
Definition scannable (l : list value) : Prop :=
  Forall (fun i => nullish i = false /\
                   (truthy (field i "environmentName") = true ->
                    stringifies (field i "environmentName") = true)) l.

(** The expression has neither the [g] nor the [y] flag: [test] leaves it as
    it is. *)
Definition stateless (deployment : RegExp) : Prop :=
  global_or_sticky deployment = false.

(** An instance's environment name is non-empty and the pattern, as it
    stands, is found in it. *)
Definition deployed_to (deployment : RegExp) (instance : value) : bool :=
  truthy (field instance "environmentName")
  && match ToString (field instance "environmentName") with
     | Ok s => (test deployment s).1
     | Throw _ => false
     end.

(** Two states of the scan that end in the same result: the expression is
    the same, and the versions held are the same or both empty. *)
Definition same_pick (a b : value * RegExp) : Prop :=
  a.2 = b.2 /\ (a.1 = b.1 \/ truthy a.1 = false /\ truthy b.1 = false).

(** Two scans that both throw the same error or end in such states. *)
Definition scans_agree (x y : outcome (value * RegExp)) : Prop :=
  match x, y with
  | Ok a, Ok b => same_pick a b
  | Throw e, Throw e' => e = e'
  | _, _ => False
  end.

(** ... and its version is non-empty too. *)
Definition names_version (deployment : RegExp) (instance : value) : bool :=
  deployed_to deployment instance && truthy (field instance "version").

(** An asset of the registry as the documented shape has it: an object whose
    [categories] and [files] are arrays of objects, each category with a key
    that can be made a string. *)
Definition asset_shaped (asset : value) : Prop :=
  nullish asset = false /\
  exists cats fs,
    field asset "categories" = VArr cats /\ keyed cats /\
    field asset "files" = VArr fs /\ readable fs.

(** The names under which a list of category pairs is filed. *)
Definition category_names (cats : list value) : list string :=
  omap key_of cats.

(** The descriptor [api] carries what the registry's object [asset] says:
    the seven plain fields as they are, each category name other than
    [__proto__] mapped to the value of the last pair with that name, nothing
    under [__proto__] and the prototype of [{}] where no pair has that name,
    and as [fatRaml] the last file entry whose classifier is ["fat-raml"]
    (none if there is no such entry). *)
Definition describes (asset : value) (api : RestApi.t) : Prop :=
  RestApi.id api = field asset "id" /\
  RestApi.name api = field asset "name" /\
  RestApi.description api = field asset "description" /\
  RestApi.updatedDate api = field asset "updatedDate" /\
  RestApi.groupId api = field asset "groupId" /\
  RestApi.assetId api = field asset "assetId" /\
  RestApi.version api = field asset "version" /\
  (forall cats, field asset "categories" = VArr cats ->
     (forall k, k <> "__proto__" ->
        own (RestApi.categories api) !! k
        = (fun c => field c "value") <$> last (List.filter (has_key k) cats)) /\
     ("__proto__" ∉ category_names cats ->
        own (RestApi.categories api) !! "__proto__" = None /\
        prototype (RestApi.categories api) = ObjectPrototype)) /\
  (forall fs, field asset "files" = VArr fs ->
     RestApi.fatRaml api
     = fileInfo_of <$> last (List.filter (has_classifier "fat-raml") fs)).

(** The request [searchExchange] sends. *)
Definition search_request (accessToken searchString : string) : Request :=
  {| req_url := ANYPOINT_BASE_URI ++ "/assets?search=" ++ searchString;
     req_authorization := Some ("Bearer " ++ accessToken) |}.

(** Where the metadata of [assetId] is looked up. *)
Definition manual_lookup_url (assetId : string) : string :=
  ANYPOINT_BASE_URI ++ "/assets/" ++ assetId.

(** The request [getAsset] sends. *)
Definition asset_request (accessToken assetId : string) : Request :=
  {| req_url := manual_lookup_url assetId;
     req_authorization := Some ("Bearer " ++ accessToken) |}.

(** The world once [req] has been sent. *)
Definition sent (req : Request) (w : World) : World :=
  set_requests (requests w ++ [req]) w.

(** What the registry answers to the next request, should it be [req]. *)
Definition answer (w : World) (req : Request) : outcome Response :=
  net w (length (requests w)) req.

(** The warning [getAsset] logs on a status that is not a success. *)
Definition lookup_failed_message (assetId : string) (res : Response)
  : string :=
  "Failed to get information about " ++ assetId ++ " from exchange: "
  ++ pretty (res_status res) ++ " - " ++ res_statusText res.

Definition manual_lookup_hint (assetId : string) : string :=
  "Please get it manually from " ++ manual_lookup_url assetId
  ++ " and update the relevant details in apis/api-config.json".

(** The world once the warning [(message, hint)] has been logged. *)
Definition warned (message hint : string) (w : World) : World :=
  set_warnings (warnings w ++ [(message, hint)]) w.

(** The asset object with members [props] and the given list of instances. *)
Definition asset_with (props : list (string * value)) (instances : list value)
  : value :=
  VObj (props ++ [("instances", VArr instances)]).

(** The request [downloadRestApi] sends for a file entry. *)
Definition download_request (fatRaml : FileInfo.t) : Request :=
  {| req_url := to_string (FileInfo.externalLink fatRaml);
     req_authorization := None |}.

(** How many more times a promise must be woken before it settles. *)
Definition steps_left (d : Download) : nat :=
  match d with
  | Settled _ => 0
  | AwaitFetch _ _ => 2
  | AwaitArrayBuffer _ _ => 1
  end.

(** A schedule that wakes each of the first [n] promises at least twice. *)
Definition fair (n : nat) (schedule : list nat) : Prop :=
  forall i, (i < n)%nat -> (2 <= count_occ Nat.eq_dec schedule i)%nat.

(** [Promise.all] never names an error that no promise was rejected with,
    and names one as soon as a promise is rejected. *)
Definition rejection_tracked (r : Run) : Prop :=
  match rejection r with
  | Some e => Settled (Throw e) ∈ promises r
  | None => forall e, Settled (Throw e) ∉ promises r
  end.

(** Where a promise that is not settled will write. *)
Definition pending_path (d : Download) : option string :=
  match d with
  | Settled _ => None
  | AwaitFetch zipFilePath _ | AwaitArrayBuffer zipFilePath _ =>
      Some zipFilePath
  end.

(** The archive of a download is on disk: with the bytes of the response,
    or at least as a file. *)
Definition archived (exact : bool) (fs : gmap string bytes)
    (zipFilePath : string) (body : bytes) : Prop :=
  if exact then fs !! zipFilePath = Some body
  else is_Some (fs !! zipFilePath).

(** How far a promise launched as [d0] has come when it is [d]: nowhere,
    past its [fetch], rejected, or fulfilled with its archive on disk. *)
Definition tracks (exact : bool) (fs : gmap string bytes)
    (d0 d : Download) : Prop :=
  d = d0 \/
  (exists zip response,
     d0 = AwaitFetch zip (Ok response) /\ d = AwaitArrayBuffer zip response) \/
  (exists e, d = Settled (Throw e)) \/
  (exists zip response body,
     (d0 = AwaitFetch zip (Ok response) \/
      d0 = AwaitArrayBuffer zip response) /\
     res_arrayBuffer response = Ok body /\
     d = Settled (Ok (Some response)) /\ archived exact fs zip body).

(** Where [downloadRestApi] puts the archive of a descriptor. *)
Definition zip_path {platform : Platform} (destinationFolder : option string)
    (restApi : RestApi.t) : string :=
  path_join (default DEFAULT_DOWNLOAD_FOLDER destinationFolder)
            (to_string (RestApi.assetId restApi) ++ ".zip").

(** A promise woken twice. *)
Definition resume_twice {platform : Platform} (d : Download) (w : World)
  : Download * World :=
  let (d1, w1) := resume d w in resume d1 w1.

(** A run of a single download, in state [d] and world [w]. *)
Definition alone (r : Run) (d : Download) (w : World) : Prop :=
  promises r = [d] /\ world r = w /\
  rejection r = match d with Settled (Throw e) => Some e | _ => None end.

(** The warning logged for a descriptor without an id. *)
Definition skip_warning (restApi : RestApi.t) : string * string :=
  (missing_id_message restApi, missing_id_hint restApi).

Definition has_id (restApi : RestApi.t) : bool :=
  truthy (RestApi.id restApi).

(** The request that the download of a descriptor sends, if it gets there. *)
Definition request_of (restApi : RestApi.t) : option Request :=
  if has_id restApi then download_request <$> RestApi.fatRaml restApi
  else None.

(** From [w] to [w'] one request has been sent and the file system is as
    it was. *)
Definition only_sent (req : Request) (w w' : World) : Prop :=
  requests w' = (requests w ++ [req])%list /\
  files w' = files w /\ dirs w' = dirs w.

(** ** Sample registry answers *)

Module Sample.

(** Path names with [/] as the only separator and no [.] or [..] parts. *)
Fixpoint parents_from (prefix rest : string) : list string :=
  match rest with
  | EmptyString => []
  | String c rest' =>
      if String.eqb (String c "") "/" then prefix :: parents_from (prefix ++ "/") rest'
      else parents_from (prefix ++ String c "") rest'
  end.

Definition plain_paths : Platform :=
  {| path_join := fun a b => a ++ "/" ++ b;
     path_parents := parents_from "" |}.

Definition file_entry (classifier link : string) : value :=
  VObj [("classifier", VStr classifier); ("packaging", VStr "zip");
        ("externalLink", VStr link); ("createdDate", VStr "2020-01-01");
        ("md5", VStr "0cc1"); ("sha1", VStr "a94a"); ("mainFile", VNull)].

Definition fat_old : value := file_entry "fat-raml" "https://cdn/old.zip".
Definition fat_new : value := file_entry "fat-raml" "https://cdn/new.zip".
Definition oas : value := file_entry "oas" "https://cdn/oas.zip".

Definition instance (environmentName version : string) : value :=
  VObj [("environmentName", VStr environmentName); ("version", VStr version)].

Definition asset (id assetId version : string) (fs instances : list value)
  : value :=
  VObj [("id", VStr id); ("name", VStr assetId); ("description", VStr "");
        ("updatedDate", VStr "2020-02-02"); ("groupId", VStr "org");
        ("assetId", VStr assetId); ("version", VStr version);
        ("categories",
         VArr [VObj [("key", VStr "Family"); ("value", VStr "Shopper")];
               VObj [("key", VStr "Visibility"); ("value", VStr "External")]]);
        ("files", VArr fs); ("instances", VArr instances)].

Definition shop : value :=
  asset "7" "shop" "1.0.0" [fat_old; oas; fat_new]
        [instance "prod-1" "2.0.0"; instance "stage" "1.9.0"].
Definition cart : value := asset "8" "cart" "0.3.0" [oas; fat_new] [].

(** The first production instance carries no version. *)
Definition shop_unversioned : value :=
  asset "7" "shop" "1.0.0" [fat_new]
        [instance "prod-1" ""; instance "prod-2" "2.0.0"].

(** Nothing is deployed and the asset's own version is empty. *)
Definition shop_blank : value := asset "7" "shop" "" [fat_new] [].

(** An asset with no packaged RAML. *)
Definition shop_oas_only : value := asset "7" "shop" "1.0.0" [oas] [].

Definition descriptor (id : value) (assetId : string)
    (fatRaml : option FileInfo.t) : RestApi.t :=
  {| RestApi.id := id; RestApi.name := VStr assetId;
     RestApi.description := VStr ""; RestApi.updatedDate := VStr "2020-02-02";
     RestApi.groupId := VStr "org"; RestApi.assetId := VStr assetId;
     RestApi.version := VStr "1.0.0";
     RestApi.categories := {| own := ∅; prototype := ObjectPrototype |};
     RestApi.fatRaml := fatRaml |}.

Definition shop_api : RestApi.t :=
  descriptor (VStr "7") "shop" (Some (fileInfo_of fat_new)).
Definition cart_api : RestApi.t :=
  descriptor (VStr "8") "cart" (Some (fileInfo_of fat_old)).
Definition unlisted_api : RestApi.t := descriptor VUndefined "draft" None.
Definition bare_api : RestApi.t := descriptor (VStr "9") "bare" None.

Definition zip_of_shop : bytes :=
  [Byte.x50; Byte.x4b; Byte.x03; Byte.x04; Byte.x73; Byte.x68].
Definition zip_of_cart : bytes := [Byte.x50; Byte.x4b; Byte.x03; Byte.x04].
Definition not_found_page : bytes := [Byte.x34; Byte.x30; Byte.x34].

Definition answering (status : Z) (statusText : string) (json : value)
    (body : bytes) : Response :=
  {| res_status := status; res_statusText := statusText;
     res_json := Ok json; res_arrayBuffer := Ok body |}.

(** A registry that answers by URL alone, and fails to answer elsewhere. *)
Fixpoint route (routes : list (string * Response)) (url : string)
  : outcome Response :=
  match routes with
  | [] => Throw (FetchError ("request to " ++ url ++ " failed"))
  | (u, res) :: rest => if String.eqb u url then Ok res else route rest url
  end.

Definition fresh (routes : list (string * Response)) : World :=
  {| net := fun _ req => route routes (req_url req);
     requests := []; dirs := ∅; files := ∅; warnings := [] |}.

(** What [^word] finds: the word at the start of the string, and only for
    a search that starts there. *)
Definition at_start (word s : string) (from : nat) : option nat :=
  if (from =? 0)%nat && String.prefix word s then Some (String.length word)
  else None.

(** [/^prod/] and [/^prod/g] *)
Definition production : RegExp :=
  {| matcher := at_start "prod"; global_or_sticky := false;
     lastIndex := 0 |}.
Definition production_g : RegExp :=
  {| matcher := at_start "prod"; global_or_sticky := true; lastIndex := 0 |}.

Definition shop_url : string := manual_lookup_url "org/shop".

(** Both archives are served. *)
Definition cdn : World :=
  fresh [("https://cdn/new.zip", answering 200 "OK" VNull zip_of_shop);
         ("https://cdn/old.zip", answering 200 "OK" VNull zip_of_cart)].

(** The archive of the shop is gone: the server answers 404 with a page. *)
Definition cdn_gone : World :=
  fresh [("https://cdn/new.zip",
          answering 404 "Not Found" VNull not_found_page)].

(** The search for [shop] finds two assets. *)
Definition catalogue : World :=
  fresh [(req_url (search_request "" "shop"),
          answering 200 "OK" (VArr [shop; cart]) [])].

(** The registry holds [metadata] for the shop. *)
Definition registry_of (metadata : value) : World :=
  fresh [(shop_url, answering 200 "OK" metadata []);
         (manual_lookup_url "org/shop/1.0.0", answering 200 "OK" metadata [])].

(** The registry knows no shop. *)
Definition registry_lost : World :=
  fresh [(shop_url, answering 404 "Not Found" VNull [])].

Definition pair (k v : string) : value :=
  VObj [("key", VStr k); ("value", VStr v)].

(** A shop with a category named [__proto__]. *)
Definition shop_proto : value :=
  VObj [("id", VStr "7"); ("name", VStr "shop"); ("description", VStr "");
        ("updatedDate", VStr "2020-02-02"); ("groupId", VStr "org");
        ("assetId", VStr "shop"); ("version", VStr "1.0.0");
        ("categories", VArr [pair "Family" "Shopper";
                             pair "__proto__" "Internal"]);
        ("files", VArr [fat_new])].

(** The search for [shop] finds that shop. *)
Definition catalogue_proto : World :=
  fresh [(req_url (search_request "" "shop"),
          answering 200 "OK" (VArr [shop_proto]) [])].

(** The descriptor it is given. *)
Definition shop_proto_api : RestApi.t :=
  {| RestApi.id := VStr "7"; RestApi.name := VStr "shop";
     RestApi.description := VStr ""; RestApi.updatedDate := VStr "2020-02-02";
     RestApi.groupId := VStr "org"; RestApi.assetId := VStr "shop";
     RestApi.version := VStr "1.0.0";
     RestApi.categories :=
       {| own := {["Family" := VStr "Shopper"]};
          prototype := ObjectPrototype |};
     RestApi.fatRaml := Some (fileInfo_of fat_new) |}.

(** A shop with a category whose key is an object with a member
    [toString]. *)
Definition shop_odd_key : value :=
  VObj [("id", VStr "7");
        ("categories",
         VArr [VObj [("key", VObj [("toString", VNum "1")]);
                     ("value", VStr "Shopper")]]);
        ("files", VArr [fat_new])].

(** A shop with an instance whose environment name is an object with a
    member [toString]. *)
Definition shop_odd_instance : value :=
  VObj [("id", VStr "7"); ("version", VStr "1.0.0");
        ("instances",
         VArr [VObj [("environmentName", VObj [("toString", VNum "1")]);
                     ("version", VStr "2.0.0")]])].

(** An asset object with nothing but an id. *)
Definition stub : value := VObj [("id", VStr "7")].

(** The registry holds the shop under its version, and the search for
    [shop] finds the cart and the shop. *)
Definition registry_and_search : World :=
  fresh [(manual_lookup_url "org/shop/1.0.0", answering 200 "OK" shop []);
         (req_url (search_request "" "shop"),
          answering 200 "OK" (VArr [cart; shop]) [])].


(** A regular file sits where the default download folder should be. *)
Definition cdn_blocked : World :=
  set_files {["download" := zip_of_cart]} cdn.

(** No server can be reached. *)
Definition offline : World := fresh [].

(** The search for [shop] finds the shop and a stub. *)
Definition catalogue_stub : World :=
  fresh [(req_url (search_request "" "shop"),
          answering 200 "OK" (VArr [shop; stub]) [])].

(** The registry knows no version 9 of the shop; it holds a stub as
    version 1.0.0. *)
Definition registry_stub : World :=
  fresh [(manual_lookup_url "org/shop/9", answering 404 "Not Found" VNull []);
         (manual_lookup_url "org/shop/1.0.0", answering 200 "OK" stub []);
         (shop_url, answering 200 "OK" stub [])].

End Sample.

(** ** Properties of the readers *)

Lemma get_field (v : value) (k : string) :
  nullish v = false -> get v k = Ok (field v k).
Proof. by destruct v. Qed.

(** Induction on values, through the elements of arrays. *)
Lemma value_elements_ind (P : value -> Prop) :
  P VUndefined -> P VNull -> (forall b, P (VBool b)) ->
  (forall digits, P (VNum digits)) -> (forall s, P (VStr s)) ->
  (forall elems, Forall P elems -> P (VArr elems)) ->
  (forall props, P (VObj props)) ->
  forall v, P v.
Proof.
  intros Hu Hn Hb Hd Hs Ha Ho. fix IH 1. intros [| |b|digits|s|elems|props].
  - exact Hu.
  - exact Hn.
  - apply Hb.
  - apply Hd.
  - apply Hs.
  - apply Ha. induction elems as [|e elems IHelems]; constructor.
    + apply IH.
    + exact IHelems.
  - apply Ho.
Qed.

(** Where [ToString] gives a string, the string of a template literal is
    that string. *)
Lemma ToString_to_string (v : value) (s : string) :
  ToString v = Ok s -> to_string v = s.
Proof.
  revert s. induction v as [| |b|digits|s'|elems IH|props]
    using value_elements_ind; intros s; simpl;
    try (intros; by simplify_eq).
  - destruct b; intros; by simplify_eq.
  - match goal with
    | |- match ?each elems with _ => _ end = _ -> _ =>
        assert (forall parts, each elems = Ok parts ->
                  map (fun e => if nullish e then "" else to_string e) elems
                  = parts) as Hparts
    end.
    { induction IH as [|e elems He _ IHelems]; intros parts Hrun.
      - by simplify_eq.
      - simpl. destruct (nullish e).
        + destruct (_ elems) as [rest|x]; [|done]. simplify_eq.
          by rewrite (IHelems rest).
        + destruct (ToString e) as [part|x]; [|done].
          destruct (_ elems) as [rest|x]; [|done]. simplify_eq.
          by rewrite (He part), (IHelems rest). }
    destruct (_ elems) as [parts|x]; [|done].
    intros Hrun. simplify_eq. by rewrite (Hparts parts).
  - destruct (member "toString" props); intros; by simplify_eq.
Qed.

Lemma forEach_app {A S} (f : S -> A -> outcome S) (l1 l2 : list A) (acc : S) :
  forEach f (l1 ++ l2) acc = let? acc' := forEach f l1 acc in forEach f l2 acc'.
Proof.
  revert acc. induction l1 as [|x l1 IH]; intros acc; simpl; [done|].
  destruct (f acc x); simpl; [apply IH | done].
Qed.

Lemma last_snoc_filter {A} (P : A -> bool) (l : list A) (x : A) :
  last (List.filter P (l ++ [x]))
  = if P x then Some x else last (List.filter P l).
Proof.
  rewrite List.filter_app. simpl. destruct (P x).
  - apply last_snoc.
  - by rewrite app_nil_r.
Qed.

Lemma filter_none {A} (P : A -> bool) (l : list A) :
  Forall (fun x => P x = false) l -> List.filter P l = [].
Proof.
  induction 1 as [|x l Hx _ IH]; simpl; [done|]. by rewrite Hx.
Qed.

(** The file scan, in one equation: the last entry with the classifier. *)
Lemma getFileByClassifier_spec (files : list value) (classifier : string) :
  readable files ->
  getFileByClassifier (VArr files) classifier
  = Ok (fileInfo_of <$> last (List.filter (has_classifier classifier) files)).
Proof.
  unfold getFileByClassifier. simpl.
  induction files as [|file files IH] using rev_ind; intros Hr; [done|].
  apply Forall_app in Hr as [Hr Hfile]. apply Forall_cons in Hfile as [Hfile _].
  rewrite forEach_app, (IH Hr), last_snoc_filter. simpl.
  rewrite !(get_field _ _ Hfile). simpl.
  unfold has_classifier. by destruct (strict_eq_str _ _).
Qed.

(** C2: among the attached files, the entry that [getFileByClassifier]
    returns is the last one whose classifier is the requested one: whatever
    comes before it, matching or not, is overwritten (last wins, not first
    wins). *)
Theorem getFileByClassifier_last_wins
    (before after : list value) (file : value) (classifier : string) :
  readable (before ++ file :: after) ->
  has_classifier classifier file = true ->
  Forall (fun f => has_classifier classifier f = false) after ->
  getFileByClassifier (VArr (before ++ file :: after)) classifier
  = Ok (Some (fileInfo_of file)).
Proof.
  intros Hr Hfile Hafter. rewrite getFileByClassifier_spec by done.
  rewrite List.filter_app. simpl. rewrite Hfile.
  rewrite (filter_none _ after) by done. by rewrite last_snoc.
Qed.

Lemma getFileByClassifier_last_wins_two_matches :
  getFileByClassifier
    (VArr [Sample.fat_old; Sample.oas; Sample.fat_new; Sample.oas]) "fat-raml"
  = Ok (Some (fileInfo_of Sample.fat_new)).
Proof.
  apply (getFileByClassifier_last_wins
           [Sample.fat_old; Sample.oas] [Sample.oas] Sample.fat_new).
  - by repeat constructor.
  - reflexivity.
  - by repeat constructor.
Defined.

(** What is found under a name other than [__proto__] after an
    assignment. *)
Lemma assign_lookup (cats : Categories) (name k : string) (v : value) :
  k <> "__proto__" ->
  own (assign cats name v) !! k
  = if decide (name = k) then Some v else own cats !! k.
Proof.
  intros Hk. unfold assign.
  destruct (String.eqb name "__proto__") eqn:Hname; simpl.
  - apply String.eqb_eq in Hname as ->. rewrite decide_False by done.
    destruct (bool_decide _ || shadows_proto_setter _); simpl.
    + by rewrite lookup_insert_ne.
    + by destruct v.
  - by rewrite lookup_insert.
Qed.

Lemma assign_plain (cats : Categories) (name : string) (v : value) :
  name <> "__proto__" ->
  assign cats name v
  = {| own := <[name := v]> (own cats); prototype := prototype cats |}.
Proof.
  intros Hname. unfold assign. apply String.eqb_neq in Hname. by rewrite Hname.
Qed.

Lemma keyed_key_of (c : value) :
  stringifies (field c "key") = true ->
  exists name, ToString (field c "key") = Ok name /\ key_of c = Some name.
Proof.
  unfold stringifies, key_of.
  destruct (ToString (field c "key")) as [name|e]; [by exists name|done].
Qed.

(** The category scan, in one equation per name: the value of the last pair
    with that name. *)
Lemma mapCategories_spec (cats : list value) :
  keyed cats ->
  exists m : Categories,
    mapCategories (VArr cats) = Ok m /\
    (forall k, k <> "__proto__" ->
       own m !! k = (fun c => field c "value")
                      <$> last (List.filter (has_key k) cats)) /\
    ("__proto__" ∉ category_names cats ->
       own m !! "__proto__" = None /\ prototype m = ObjectPrototype).
Proof.
  unfold mapCategories. simpl.
  induction cats as [|c cats IH] using rev_ind; intros Hr.
  - eexists. split; [done|]. split; [|done].
    intros k _. simpl. by rewrite lookup_empty.
  - apply Forall_app in Hr as [Hr Hc].
    apply Forall_cons in Hc as [[Hc Hkey] _].
    destruct (IH Hr) as (m & Hm & Hlookup & Hproto).
    destruct (keyed_key_of c Hkey) as (name & Hname & Hkeyof).
    exists (assign m name (field c "value")). split; [|split].
    + rewrite forEach_app, Hm. simpl. rewrite !(get_field _ _ Hc). simpl.
      by rewrite Hname.
    + intros k Hk. rewrite last_snoc_filter, assign_lookup by done.
      unfold has_key at 1. rewrite Hkeyof. case_decide as Heq.
      * subst. by rewrite bool_decide_true.
      * rewrite bool_decide_false by congruence. by apply Hlookup.
    + unfold category_names. rewrite omap_app. simpl. rewrite Hkeyof. simpl.
      intros Hnotin. apply not_elem_of_app in Hnotin as [Hnot1 Hnot2].
      apply not_elem_of_cons in Hnot2 as [Hne _].
      destruct (Hproto Hnot1) as [Hnone Hp].
      rewrite assign_plain by done. simpl.
      split; [by rewrite lookup_insert_ne|done].
Qed.

Lemma convertResponseToRestApi_spec (asset : value) :
  asset_shaped asset ->
  exists api, convertResponseToRestApi asset = Ok api /\ describes asset api.
Proof.
  intros (Hasset & cats & fs & Hcats & Hrc & Hfs & Hrf).
  destruct (mapCategories_spec cats Hrc) as (m & Hm & Hlookup & Hproto).
  eexists. split.
  - unfold convertResponseToRestApi. rewrite !(get_field _ _ Hasset). simpl.
    rewrite Hcats, Hm, Hfs, getFileByClassifier_spec by done. simpl.
    reflexivity.
  - do 7 (split; [done|]). split; simpl.
    + intros cats' Heq. rewrite Hcats in Heq. by simplify_eq.
    + intros fs' Heq. rewrite Hfs in Heq. by simplify_eq.
Qed.

Lemma convert_all (assets : list value) (acc : list RestApi.t) :
  Forall asset_shaped assets ->
  exists apis,
    forEach (fun (apis : list RestApi.t) restApi =>
               let? api := convertResponseToRestApi restApi in
               Ok (apis ++ [api])%list) assets acc
    = Ok (acc ++ apis)%list /\
    Forall2 describes assets apis.
Proof.
  intros Hall. revert acc.
  induction Hall as [|asset assets Hasset _ IH]; intros acc.
  - exists []. by rewrite app_nil_r.
  - destruct (convertResponseToRestApi_spec asset Hasset) as (api & Hapi & Hd).
    destruct (IH (acc ++ [api])%list) as (apis & Hrest & Hds).
    exists (api :: apis). split; [|by constructor].
    simpl. rewrite Hapi. simpl. rewrite Hrest. by rewrite <- app_assoc.
Qed.

(** X20: on an answer that is an array of well-formed asset objects,
    [searchExchange] sends one search request and returns one descriptor per
    object, as many as there are objects and in their order; each carries
    its object's seven plain fields, its category pairs as a mapping from
    name to value (for every name but [__proto__]) and, as [fatRaml], the
    last file entry classified ["fat-raml"]. *)
Theorem searchExchange_maps_every_asset
    (accessToken searchString : string) (w : World) (res : Response)
    (assets : list value) :
  answer w (search_request accessToken searchString) = Ok res ->
  res_json res = Ok (VArr assets) ->
  Forall asset_shaped assets ->
  exists apis,
    searchExchange accessToken searchString w
    = (Ok apis, sent (search_request accessToken searchString) w) /\
    length apis = length assets /\
    Forall2 describes assets apis.
Proof.
  intros Hnet Hjson Hshape.
  destruct (convert_all assets [] Hshape) as (apis & Hconv & Hdesc).
  exists apis. split; [|split; [symmetry; by eapply Forall2_length|done]].
  unfold searchExchange, bind, fetch, lift. unfold answer, search_request in Hnet.
  rewrite Hnet, Hjson. simpl. by rewrite Hconv.
Qed.


Lemma getAsset_sends (accessToken assetId : string) (w : World) :
  requests (getAsset accessToken assetId w).2
  = (requests w ++ [asset_request accessToken assetId])%list.
Proof.
  unfold getAsset, bind, fetch. simpl.
  destruct (net w _ _) as [res|e]; [|done].
  by destruct (res_ok res).
Qed.

(** What [getAsset] does once the registry has answered. *)
Lemma getAsset_answered (accessToken assetId : string) (w : World)
    (res : Response) :
  answer w (asset_request accessToken assetId) = Ok res ->
  getAsset accessToken assetId w
  = if res_ok res
    then (res_json res, sent (asset_request accessToken assetId) w)
    else (Ok VUndefined,
          warned (lookup_failed_message assetId res)
                 (manual_lookup_hint assetId)
                 (sent (asset_request accessToken assetId) w)).
Proof.
  intros Hnet. unfold answer, asset_request, manual_lookup_url in Hnet.
  unfold getAsset, bind, fetch. rewrite Hnet. by destruct (res_ok res).
Qed.

Lemma getAsset_failed (accessToken assetId : string) (w : World)
    (e : error) :
  answer w (asset_request accessToken assetId) = Throw e ->
  getAsset accessToken assetId w
  = (Throw e, sent (asset_request accessToken assetId) w).
Proof.
  intros Hnet. unfold answer, asset_request, manual_lookup_url in Hnet.
  unfold getAsset, bind, fetch. by rewrite Hnet.
Qed.

(** C8: without a version [getSpecificApi] hands back [null] itself, and
    awaiting it leaves the world as it was, no request sent.  With a version
    it hands back a promise that sends the one metadata request for
    [groupId/assetId/version]; when the registry answers with the metadata
    of an asset, the promise settles to the descriptor that carries what
    the metadata says; when the lookup came back with nothing (a status that
    is no success, or an empty body), it settles to [null]; a request or a
    parse that fails is passed on. *)
Theorem getSpecificApi_absent_or_mapped
    (accessToken groupId assetId : string) (version : value) (w : World) :
  let call := getSpecificApi accessToken groupId assetId version in
  let path := groupId ++ "/" ++ assetId ++ "/" ++ to_string version in
  (truthy version = false ->
     call = NotAPromise None /\ await call w = (Ok None, w)) /\
  (truthy version = true ->
     (exists p, call = APromise p) /\
     requests (await call w).2
     = (requests w ++ [asset_request accessToken path])%list /\
     (forall e,
        answer w (asset_request accessToken path) = Throw e ->
        await call w = (Throw e, sent (asset_request accessToken path) w)) /\
     (forall res,
        answer w (asset_request accessToken path) = Ok res ->
        (res_ok res = false ->
           await call w
           = (Ok None,
              warned (lookup_failed_message path res) (manual_lookup_hint path)
                     (sent (asset_request accessToken path) w))) /\
        (forall e,
           res_ok res = true -> res_json res = Throw e ->
           await call w
           = (Throw e, sent (asset_request accessToken path) w)) /\
        (forall api,
           res_ok res = true -> res_json res = Ok api ->
           (truthy api = false ->
              await call w
              = (Ok None, sent (asset_request accessToken path) w)) /\
           (asset_shaped api ->
              exists r,
                await call w
                = (Ok (Some r), sent (asset_request accessToken path) w) /\
                describes api r)))).
Proof.
  intros call path. subst call path. unfold getSpecificApi. split; intros Hv.
  - by rewrite Hv.
  - rewrite Hv. simpl. split; [by eexists|]. split; [|split].
    + pose proof (getAsset_sends accessToken
                    (groupId ++ "/" ++ assetId ++ "/" ++ to_string version) w)
        as Hsent.
      unfold bind.
      destruct (getAsset _ _ w) as [[api|e] w1]; simpl in *; [|done].
      destruct (truthy api); [|done]. unfold lift, ret.
      by destruct (convertResponseToRestApi api).
    + intros e Hnet. apply getAsset_failed in Hnet.
      unfold bind at 1. by rewrite Hnet.
    + intros res Hnet. apply getAsset_answered in Hnet. split; [|split].
      * intros Hok. unfold bind at 1. by rewrite Hnet, Hok.
      * intros e Hok Hjson. unfold bind at 1. by rewrite Hnet, Hok, Hjson.
      * intros api Hok Hjson. split.
        -- intros Hfalsy. unfold bind at 1. by rewrite Hnet, Hok, Hjson, Hfalsy.
        -- intros Hshape.
           destruct (convertResponseToRestApi_spec api Hshape)
             as (r & Hr & Hdesc).
           exists r. split; [|done].
           unfold bind at 1. rewrite Hnet, Hok, Hjson.
           assert (truthy api = true) as ->.
           { destruct Hshape as (_ & cats & fs & Hcats & _). by destruct api. }
           unfold bind, lift, ret. by rewrite Hr.
Qed.

(** An expression without the [g] and [y] flags comes out of the callback as
    it went in. *)
Lemma scanInstance_stateless (deployment : RegExp)
    (version instance : value) :
  stateless deployment ->
  nullish instance = false ->
  (truthy (field instance "environmentName") = true ->
   stringifies (field instance "environmentName") = true) ->
  scanInstance (version, deployment) instance
  = Ok (if deployed_to deployment instance && negb (truthy version)
        then field instance "version" else version, deployment).
Proof.
  unfold stateless. intros Hre Hi Henv. unfold scanInstance, deployed_to.
  rewrite (get_field _ _ Hi). simpl.
  destruct (truthy (field instance "environmentName")); [|done]. simpl.
  specialize (Henv eq_refl). unfold stringifies in Henv.
  destruct (ToString _) as [s|e]; [|done]. simpl.
  unfold test. rewrite Hre. simpl.
  destruct (bool_decide _ && negb (truthy version)); [|done].
  by rewrite (get_field _ _ Hi).
Qed.

(** The scan leaves a non-empty version alone. *)
Lemma scan_keeps (deployment : RegExp) (instances : list value)
    (version : value) :
  stateless deployment -> scannable instances -> truthy version = true ->
  forEach scanInstance instances (version, deployment)
  = Ok (version, deployment).
Proof.
  intros Hre Hr Hv. induction Hr as [|instance instances [Hi Henv] _ IH]; [done|].
  cbn [forEach]. rewrite scanInstance_stateless by done. simpl.
  by rewrite Hv, andb_false_r.
Qed.

(** Started on an empty version, the scan ends on the version of the first
    instance that is deployed to the environment and has a non-empty
    version, or on an empty version if there is none. *)
Lemma scan_finds (deployment : RegExp) (instances : list value)
    (version : value) :
  stateless deployment -> scannable instances -> truthy version = false ->
  exists v,
    forEach scanInstance instances (version, deployment)
    = Ok (v, deployment) /\
    match find (names_version deployment) instances with
    | Some instance => v = field instance "version" /\ truthy v = true
    | None => truthy v = false
    end.
Proof.
  intros Hre Hr. revert version.
  induction Hr as [|instance instances [Hi Henv] Hr IH]; intros version Hv.
  - by exists version.
  - cbn [forEach find]. rewrite scanInstance_stateless by done. simpl.
    unfold names_version. rewrite Hv, andb_true_r.
    destruct (deployed_to deployment instance); simpl; [|by apply IH].
    destruct (truthy (field instance "version")) eqn:Hver; [|by apply IH].
    exists (field instance "version"). by rewrite scan_keeps.
Qed.

Lemma pickVersion_spec (deployment : RegExp) (asset : value)
    (instances : list value) :
  stateless deployment ->
  nullish asset = false ->
  field asset "instances" = VArr instances -> scannable instances ->
  pickVersion deployment asset
  = Ok match find (names_version deployment) instances with
       | Some instance => field instance "version"
       | None => field asset "version"
       end.
Proof.
  intros Hre Hasset Hinst Hr. unfold pickVersion.
  rewrite !(get_field _ _ Hasset), Hinst. simpl.
  destruct (scan_finds deployment instances VNull Hre Hr eq_refl)
    as (v & -> & Hv).
  simpl. destruct (find _ instances).
  - destruct Hv as [-> ->]. done.
  - by rewrite Hv.
Qed.

Lemma truthy_not_nullish (v : value) : truthy v = true -> nullish v = false.
Proof. by destruct v. Qed.

(** X21: with the metadata found and a pattern without the [g] and [y]
    flags, [getVersionByDeployment] returns the version of the first
    instance, in listed order, whose environment name is non-empty and
    matches the pattern and whose version is non-empty; if there is no such
    instance it returns the asset's own top-level version field; with no
    metadata found it returns nothing, without error. *)
Theorem getVersionByDeployment_first_named_version
    (accessToken : string) (restApi : RestApi.t)
    (deployment : RegExp) (w w1 : World) (asset : value) :
  getAsset accessToken
    (to_string (RestApi.groupId restApi) ++ "/"
     ++ to_string (RestApi.assetId restApi)) w = (Ok asset, w1) ->
  (truthy asset = false ->
     getVersionByDeployment accessToken restApi deployment w
     = (Ok VUndefined, w1)) /\
  (forall instances,
     stateless deployment ->
     truthy asset = true ->
     field asset "instances" = VArr instances -> scannable instances ->
     getVersionByDeployment accessToken restApi deployment w
     = (Ok match find (names_version deployment) instances with
           | Some instance => field instance "version"
           | None => field asset "version"
           end, w1)).
Proof.
  intros Hasset. unfold getVersionByDeployment, bind. rewrite Hasset.
  split.
  - by intros ->.
  - intros instances Hre Ht Hinst Hr. rewrite Ht. simpl. unfold lift.
    by rewrite (pickVersion_spec _ _ instances)
      by auto using truthy_not_nullish.
Qed.

Lemma member_snoc (k k' : string) (v : value) (props : list (string * value)) :
  member k (props ++ [(k', v)])
  = if String.eqb k' k then Some v else member k props.
Proof.
  induction props as [|[k0 v0] props IH]; simpl.
  - by destruct (String.eqb k' k).
  - rewrite IH. by destruct (String.eqb k' k).
Qed.

Lemma get_asset_with (props : list (string * value)) (l : list value) :
  get (asset_with props l) "instances" = Ok (VArr l) /\
  get (asset_with props l) "version"
  = Ok (default VUndefined (member "version" props)).
Proof. unfold asset_with, get. by rewrite !member_snoc. Qed.

Lemma same_pick_refl (a : value * RegExp) : same_pick a a.
Proof. split; [done|by left]. Qed.

(** The callback takes two states that agree to two states that agree: the
    expression is tested in both, and whether the version is assigned
    depends only on its being empty. *)
Lemma scanInstance_agree (a b : value * RegExp) (instance : value) :
  same_pick a b ->
  scans_agree (scanInstance a instance) (scanInstance b instance).
Proof.
  destruct a as [v1 re1], b as [v2 re2]. intros [Hre Hv]. simpl in Hre, Hv.
  subst re2. unfold scanInstance.
  destruct (get instance "environmentName") as [env|e]; simpl; [|done].
  destruct (truthy env); [|by split].
  destruct (ToString env) as [s|e]; simpl; [|done].
  destruct (test re1 s) as [found re']. destruct found; simpl; [|by split].
  destruct Hv as [->|[-> ->]].
  - destruct (truthy v2); simpl; [by split; [|left]|].
    destruct (get instance "version"); simpl; [apply same_pick_refl|done].
  - simpl. destruct (get instance "version"); simpl; [apply same_pick_refl|done].
Qed.

Lemma forEach_agree (instances : list value) (a b : value * RegExp) :
  same_pick a b ->
  scans_agree (forEach scanInstance instances a)
              (forEach scanInstance instances b).
Proof.
  revert a b. induction instances as [|instance instances IH]; intros a b Hab.
  - done.
  - simpl. pose proof (scanInstance_agree a b instance Hab) as Hstep.
    destruct (scanInstance a instance) as [a'|e],
             (scanInstance b instance) as [b'|e']; simpl in *; try done.
    by apply IH.
Qed.

(** The callback on a matching instance with an empty version. *)
Lemma scanInstance_skipped (deployment : RegExp) (version skipped : value) :
  stateless deployment ->
  deployed_to deployment skipped = true ->
  truthy (field skipped "version") = false ->
  exists v,
    scanInstance (version, deployment) skipped = Ok (v, deployment) /\
    same_pick (v, deployment) (version, deployment).
Proof.
  intros Hre Hdep Hver.
  assert (truthy (field skipped "environmentName") = true) as Henv.
  { unfold deployed_to in Hdep. by apply andb_true_iff in Hdep as [? _]. }
  assert (nullish skipped = false) as Hi.
  { destruct skipped; try done; by destruct Henv. }
  assert (stringifies (field skipped "environmentName") = true) as Hs.
  { unfold deployed_to in Hdep. apply andb_true_iff in Hdep as [_ Hdep].
    unfold stringifies. by destruct (ToString _). }
  rewrite scanInstance_stateless by done. rewrite Hdep. simpl.
  eexists. split; [done|]. split; [done|]. simpl.
  destruct (truthy version) eqn:Hv; simpl; [by left|by right].
Qed.

(** A scan with an expression without the [g] and [y] flags returns the
    expression as it was. *)
Lemma forEach_scan_stateless (deployment : RegExp) (instances : list value)
    (version : value) (scan : value * RegExp) :
  stateless deployment ->
  forEach scanInstance instances (version, deployment) = Ok scan ->
  scan.2 = deployment.
Proof.
  unfold stateless. intros Hre. revert version.
  induction instances as [|instance instances IH]; intros version Hrun.
  - simpl in Hrun. by simplify_eq.
  - simpl in Hrun. unfold scanInstance at 1 in Hrun.
    destruct (get instance "environmentName") as [env|e];
      [simpl in Hrun|done].
    destruct (truthy env); [|by eapply IH].
    destruct (ToString env) as [s|e]; [simpl in Hrun|done].
    unfold test in Hrun. rewrite Hre in Hrun.
    destruct (bool_decide _ && negb (truthy version)); [|by eapply IH].
    destruct (get instance "version") as [v|e]; [simpl in Hrun|done].
    by eapply IH.
Qed.

(** C10, as the code has it: an empty (falsy) result of
    [getVersionByDeployment] is never the version of an instance: either no
    metadata was found and the result is absent, or the result is the asset's
    own top-level version field, which the fallback returns whatever it is.
    And for a pattern without the [g] and [y] flags, an instance that
    matches but has an empty version is ignored: the asset without it
    resolves to the same version or fails with the same error, so it is not
    the first match that decides when its version is empty. *)
Theorem getVersionByDeployment_empty_only_from_asset
    (accessToken : string) (restApi : RestApi.t)
    (deployment : RegExp) (w : World) :
  (forall v w',
     getVersionByDeployment accessToken restApi deployment w = (Ok v, w') ->
     truthy v = false ->
     exists asset,
       getAsset accessToken
         (to_string (RestApi.groupId restApi) ++ "/"
          ++ to_string (RestApi.assetId restApi)) w = (Ok asset, w') /\
       (truthy asset = false /\ v = VUndefined \/
        truthy asset = true /\ v = field asset "version")) /\
  (forall props before skipped after,
     stateless deployment ->
     deployed_to deployment skipped = true ->
     truthy (field skipped "version") = false ->
     pickVersion deployment (asset_with props (before ++ skipped :: after))
     = pickVersion deployment (asset_with props (before ++ after))).
Proof.
  split.
  - intros v w'. unfold getVersionByDeployment, bind.
    destruct (getAsset _ _ w) as [[asset|e] w1]; [|done].
    destruct (truthy asset) eqn:Hasset; simpl.
    + unfold lift, pickVersion. intros Hrun Hv. exists asset.
      rewrite !(get_field asset) in Hrun by auto using truthy_not_nullish.
      simpl in Hrun.
      destruct (array_items (field asset "instances")) as [entries|e];
        [simpl in Hrun|done].
      destruct (forEach _ entries _) as [[version re]|e]; [simpl in Hrun|done].
      destruct (truthy version) eqn:Hversion; simplify_eq; [congruence|].
      eauto.
    + unfold ret. intros Hrun _. simplify_eq. eauto.
  - intros props before skipped after Hre Hdep Hver.
    unfold pickVersion.
    rewrite !(proj1 (get_asset_with _ _)), !(proj2 (get_asset_with _ _)).
    cbn [obind array_items]. rewrite !forEach_app.
    destruct (forEach scanInstance before (VNull, deployment))
      as [[version re]|e] eqn:Hbefore; cbn [obind forEach]; [|done].
    apply forEach_scan_stateless in Hbefore; [|done]. simpl in Hbefore.
    subst re.
    destruct (scanInstance_skipped deployment version skipped Hre Hdep Hver)
      as (v & -> & Hsame). cbn [obind].
    pose proof (forEach_agree after _ _ Hsame) as Hafter.
    destruct (forEach scanInstance after (v, deployment)) as [[v1 re1]|e1],
             (forEach scanInstance after (version, deployment))
               as [[v2 re2]|e2]; simpl in *; try done; [|by subst].
    destruct Hafter as [_ Hafter]. simpl in Hafter.
    destruct Hafter as [->|[-> ->]]; done.
Qed.

(** ** Properties of a single download *)

Section SingleDownload.
Context {platform : Platform}.

(** The promise of a call, woken twice with nothing in between, settles to
    what the awaited call returns, in the same world. *)
Lemma downloadRestApi_alone (restApi : RestApi.t) (folder : string)
    (w : World) :
  let (d0, w0) := downloadRestApi_call restApi folder w in
  let (d1, w1) := resume d0 w0 in
  let (d2, w2) := resume d1 w1 in
  (d2, w2)
  = let (result, w') := downloadRestApi restApi (Some folder) w in
    (Settled result, w').
Proof.
  unfold downloadRestApi_call, downloadRestApi. simpl.
  destruct (truthy (RestApi.id restApi)); simpl; [|done].
  unfold bind at 1.
  destruct (ensureDirSync folder w) as [[[]|e] w0]; simpl; [|done].
  unfold bind at 1, lift.
  destruct (fatRaml_externalLink restApi) as [link|e]; simpl; [|done].
  unfold bind at 1, fetch.
  destruct (net w0 _ _) as [response|e]; simpl; [|done].
  unfold bind at 1.
  destruct (res_arrayBuffer response) as [body|e]; simpl; [|done].
  unfold bind, ret.
  by destruct (writeFileSync _ body _) as [[[]|e] w1].
Qed.

(** C3: for a descriptor whose registry id is missing (absent or empty),
    [downloadRestApi] sends no request, writes no file and creates no
    directory, logs exactly one warning, whose hint names the URL to download
    the asset from by hand, and returns normally with no result. *)
Theorem downloadRestApi_skips_missing_id
    (restApi : RestApi.t) (destinationFolder : option string) (w : World) :
  truthy (RestApi.id restApi) = false ->
  exists w',
    downloadRestApi restApi destinationFolder w = (Ok None, w') /\
    requests w' = requests w /\
    files w' = files w /\
    dirs w' = dirs w /\
    warnings w'
    = (warnings w
       ++ [(missing_id_message restApi,
            ("Please download it manually from "
             ++ manual_download_url restApi
             ++ " and update the relevant details in apis/api-config.json"
            )%string)])%list.
Proof.
  intros Hid. unfold downloadRestApi. rewrite Hid. simpl.
  by eexists.
Qed.

Lemma ensureDirSync_ok (dir : string) (w w1 : World) :
  ensureDirSync dir w = (Ok tt, w1) ->
  w1 = set_dirs (dirs w ∪ list_to_set (dir :: path_parents dir)) w.
Proof.
  unfold ensureDirSync. intros Hrun.
  destruct (is_file w dir); [done|].
  destruct (existsb _ _); [done|]. by simplify_eq.
Qed.

Lemma writeFileSync_ok (file : string) (data : bytes) (w w1 : World) :
  writeFileSync file data w = (Ok tt, w1) ->
  w1 = set_files (<[file := data]> (files w)) w.
Proof.
  unfold writeFileSync. intros Hrun.
  destruct (is_dir w file); [done|].
  destruct (forallb _ _); [|done]. by simplify_eq.
Qed.

(** C4: a call for a descriptor with a registry id that ends well has made
    the destination directory exist, with the directories above it, has sent
    one request, with no credentials, to the external link of [fatRaml], and
    has put the whole body of the answer, byte for byte, in
    [<destinationFolder>/<assetId>.zip], in place of whatever that path held;
    no other file has changed and nothing is logged. *)
Theorem downloadRestApi_writes_archive
    (restApi : RestApi.t) (destinationFolder : option string) (w w' : World)
    (result : option Response) :
  truthy (RestApi.id restApi) = true ->
  downloadRestApi restApi destinationFolder w = (Ok result, w') ->
  let folder := default DEFAULT_DOWNLOAD_FOLDER destinationFolder in
  let zipFilePath :=
    path_join folder (to_string (RestApi.assetId restApi) ++ ".zip") in
  exists fatRaml response body,
    RestApi.fatRaml restApi = Some fatRaml /\
    answer w (download_request fatRaml) = Ok response /\
    result = Some response /\
    res_arrayBuffer response = Ok body /\
    requests w' = (requests w ++ [download_request fatRaml])%list /\
    dirs w' = dirs w ∪ list_to_set (folder :: path_parents folder) /\
    folder ∈ dirs w' /\
    files w' = <[zipFilePath := body]> (files w) /\
    files w' !! zipFilePath = Some body /\
    length <$> files w' !! zipFilePath = Some (length body) /\
    warnings w' = warnings w.
Proof.
  intros Hid Hrun folder zipFilePath. subst folder zipFilePath.
  unfold downloadRestApi in Hrun. rewrite Hid in Hrun. simpl in Hrun.
  unfold bind at 1 in Hrun.
  destruct (ensureDirSync _ w) as [[[]|e] w1] eqn:Hdir; [|done].
  apply ensureDirSync_ok in Hdir. unfold bind at 1, lift in Hrun.
  unfold fatRaml_externalLink in Hrun.
  destruct (RestApi.fatRaml restApi) as [fatRaml|]; [|done].
  unfold bind at 1, fetch in Hrun.
  destruct (net w1 _ _) as [response|e] eqn:Hnet; [|done].
  unfold bind at 1, lift in Hrun.
  destruct (res_arrayBuffer response) as [body|e] eqn:Hbody; [|done].
  unfold bind, ret in Hrun.
  destruct (writeFileSync _ body _) as [[[]|e] w2] eqn:Hwrite; [|done].
  apply writeFileSync_ok in Hwrite. simplify_eq. simpl.
  exists fatRaml, response, body.
  repeat split; try done.
  - set_solver.
  - by rewrite lookup_insert_eq.
  - by rewrite lookup_insert_eq.
Qed.

(** C9: [downloadRestApi] reads [restApi.fatRaml.externalLink] unguarded.
    For a descriptor that has a registry id but no [fatRaml] the call faults:
    it throws (the [TypeError] of the read, once the directory is there),
    having sent no request, written no file and logged no warning.
    [getFileByClassifier] returns nothing when no file has the classifier, so
    the descriptor that [convertResponseToRestApi] builds, for
    [searchExchange] and [getSpecificApi] alike, from an asset with an id and
    no ["fat-raml"] file is such a descriptor. *)
Theorem downloadRestApi_faults_without_fatRaml :
  (forall restApi destinationFolder w,
     truthy (RestApi.id restApi) = true ->
     RestApi.fatRaml restApi = None ->
     exists e w',
       downloadRestApi restApi destinationFolder w = (Throw e, w') /\
       (forall w1,
          ensureDirSync (default DEFAULT_DOWNLOAD_FOLDER destinationFolder) w
          = (Ok tt, w1) ->
          e = TypeError
                "Cannot read properties of undefined (reading 'externalLink')"
          /\ w' = w1) /\
       requests w' = requests w /\ files w' = files w /\
       warnings w' = warnings w) /\
  (forall fs classifier,
     readable fs ->
     Forall (fun f => has_classifier classifier f = false) fs ->
     getFileByClassifier (VArr fs) classifier = Ok None) /\
  (forall asset fs destinationFolder w,
     asset_shaped asset ->
     truthy (field asset "id") = true ->
     field asset "files" = VArr fs ->
     Forall (fun f => has_classifier "fat-raml" f = false) fs ->
     exists api e w',
       convertResponseToRestApi asset = Ok api /\
       downloadRestApi api destinationFolder w = (Throw e, w') /\
       requests w' = requests w /\ files w' = files w /\
       warnings w' = warnings w).
Proof.
  assert (forall restApi destinationFolder w,
     truthy (RestApi.id restApi) = true ->
     RestApi.fatRaml restApi = None ->
     exists e w',
       downloadRestApi restApi destinationFolder w = (Throw e, w') /\
       (forall w1,
          ensureDirSync (default DEFAULT_DOWNLOAD_FOLDER destinationFolder) w
          = (Ok tt, w1) ->
          e = TypeError
                "Cannot read properties of undefined (reading 'externalLink')"
          /\ w' = w1) /\
       requests w' = requests w /\ files w' = files w /\
       warnings w' = warnings w) as Hfault.
  { intros restApi destinationFolder w Hid Hfat.
    unfold downloadRestApi. rewrite Hid. simpl. unfold bind at 1.
    destruct (ensureDirSync _ w) as [[[]|e] w1] eqn:Hdir.
    - pose proof (ensureDirSync_ok _ _ _ Hdir) as ->.
      unfold bind, lift, fatRaml_externalLink. rewrite Hfat.
      eexists _, _. split; [done|]. split; [|done].
      intros w1 Hw1. by simplify_eq.
    - unfold ensureDirSync in Hdir.
      exists e, w1. split; [done|]. split; [done|].
      destruct (is_file w _); [by simplify_eq|].
      destruct (existsb _ _); by simplify_eq. }
  split; [done|]. split.
  { intros fs classifier Hr Hno. rewrite getFileByClassifier_spec by done.
    by rewrite filter_none. }
  intros asset fs destinationFolder w Hshape Hid Hfs Hno.
  destruct (convertResponseToRestApi_spec asset Hshape)
    as (api & Hapi & Hdesc).
  destruct Hdesc as (Hapi_id & _ & _ & _ & _ & _ & _ & _ & Hfat).
  specialize (Hfat fs Hfs). rewrite filter_none in Hfat by done.
  destruct (Hfault api destinationFolder w) as (e & w' & Hrun & _ & Hrest);
    [by rewrite Hapi_id|done|].
  by exists api, e, w'.
Qed.

End SingleDownload.

(** ** Properties of the aggregate download *)

Section Aggregate.
Context {platform : Platform}.

Lemma is_file_files (w1 w2 : World) (p : string) :
  files w1 = files w2 -> is_file w1 p = is_file w2 p.
Proof. unfold is_file. by intros ->. Qed.

Lemma ensureDirSync_files (dir : string) (w1 w2 : World) :
  files w1 = files w2 ->
  (ensureDirSync dir w1).1 = (ensureDirSync dir w2).1.
Proof.
  intros Hf. unfold ensureDirSync. rewrite (is_file_files w1 w2) by done.
  destruct (is_file w2 dir); [done|].
  replace (existsb (is_file w1) (path_parents dir))
    with (existsb (is_file w2) (path_parents dir)).
  - by destruct (existsb _ _).
  - induction (path_parents dir) as [|p l IH]; simpl; [done|].
    by rewrite IH, (is_file_files w1 w2).
Qed.

(** What one call does before its first [await]. *)
Lemma downloadRestApi_call_effects (api : RestApi.t) (folder : string)
    (w : World) :
  let w1 := (downloadRestApi_call api folder w).2 in
  files w1 = files w /\ net w1 = net w /\
  exists sent_now, requests w1 = (requests w ++ sent_now)%list /\
    forall fatRaml,
      truthy (RestApi.id api) = true ->
      RestApi.fatRaml api = Some fatRaml ->
      (ensureDirSync folder w).1 = Ok tt ->
      sent_now = [download_request fatRaml].
Proof.
  unfold downloadRestApi_call.
  destruct (truthy (RestApi.id api)); simpl.
  - destruct (ensureDirSync folder w) as [[[]|e] w1] eqn:Hdir.
    + apply ensureDirSync_ok in Hdir. subst w1.
      unfold fatRaml_externalLink.
      destruct (RestApi.fatRaml api) as [fatRaml|]; simpl.
      * repeat split. eexists. split; [done|]. intros ? _ ? _. by simplify_eq.
      * repeat split. exists []. by rewrite app_nil_r.
    + unfold ensureDirSync in Hdir. simpl.
      assert (w1 = w) as ->.
      { destruct (is_file w folder); [by simplify_eq|].
        destruct (existsb _ _); by simplify_eq. }
      repeat split. exists []. by rewrite app_nil_r.
  - repeat split. exists []. by rewrite app_nil_r.
Qed.

(** The launch writes no file; it sends, in the order of the descriptors, the
    request of every download that gets as far as its [fetch]. *)
Lemma launch_effects (restApi : list RestApi.t) (folder : string) (w : World) :
  let ps := (launch restApi folder w).1 in
  let w1 := (launch restApi folder w).2 in
  length ps = length restApi /\ files w1 = files w /\
  exists sent_now, requests w1 = (requests w ++ sent_now)%list /\
    forall api fatRaml,
      api ∈ restApi ->
      truthy (RestApi.id api) = true ->
      RestApi.fatRaml api = Some fatRaml ->
      (ensureDirSync folder w).1 = Ok tt ->
      download_request fatRaml ∈ sent_now.
Proof.
  revert w. induction restApi as [|api rest IH]; intros w; simpl.
  - repeat split. exists []. split; [by rewrite app_nil_r|].
    intros api fatRaml Hin. by apply elem_of_nil in Hin.
  - destruct (downloadRestApi_call_effects api folder w)
      as (Hfiles & _ & sent1 & Hsent1 & Hreq1).
    destruct (downloadRestApi_call api folder w) as [d w1]. simpl in *.
    destruct (IH w1) as (Hlen & Hfiles2 & sent2 & Hsent2 & Hreq2).
    destruct (launch rest folder w1) as [ds w2]. simpl in *.
    split; [by rewrite Hlen|]. split; [congruence|].
    exists (sent1 ++ sent2)%list. split.
    + by rewrite Hsent2, Hsent1, app_assoc.
    + intros a fatRaml Hin Hid Hfat Hdir. apply elem_of_app.
      apply elem_of_cons in Hin as [->|Hin].
      * left. rewrite (Hreq1 fatRaml) by done. by apply list_elem_of_singleton.
      * right. apply (Hreq2 a); try done.
        by rewrite (ensureDirSync_files folder w1 w).
Qed.

(** Waking a promise sends nothing, logs nothing, and removes no file. *)
Lemma resume_effects (d : Download) (w : World) :
  let w1 := (resume d w).2 in
  requests w1 = requests w /\ warnings w1 = warnings w /\
  dirs w1 = dirs w /\ dom (files w) ⊆ dom (files w1).
Proof.
  destruct d as [result|zipFilePath [response|e]|zipFilePath response];
    simpl; try done.
  destruct (res_arrayBuffer response) as [body|e]; simpl; [|done].
  unfold writeFileSync.
  destruct (is_dir w zipFilePath); [done|].
  destruct (forallb _ _); simpl; [|done].
  repeat split. rewrite dom_insert_L. set_solver.
Qed.

Lemma resume_settled (d : Download) (w : World) :
  settled d = true -> resume d w = (d, w).
Proof. by destruct d. Qed.

Lemma resume_steps_left (d : Download) (w : World) :
  (steps_left (resume d w).1 <= pred (steps_left d))%nat.
Proof.
  destruct d as [result|zipFilePath [response|e]|zipFilePath response];
    simpl; try lia.
  destruct (res_arrayBuffer response); simpl; [|lia].
  destruct (writeFileSync _ _ _) as [[[]|e] w1]; simpl; lia.
Qed.

Lemma wake_effects (r : Run) (i : nat) :
  let r1 := wake r i in
  requests (world r1) = requests (world r) /\
  warnings (world r1) = warnings (world r) /\
  dirs (world r1) = dirs (world r) /\
  dom (files (world r)) ⊆ dom (files (world r1)) /\
  length (promises r1) = length (promises r).
Proof.
  unfold wake. destruct (promises r !! i) as [d|]; [|done].
  destruct (resume_effects d (world r)) as (? & ? & ? & ?).
  destruct (resume d (world r)) as [d' w']. simpl in *.
  by rewrite length_insert.
Qed.

Lemma run_effects (schedule : list nat) (r : Run) :
  let r1 := fold_left wake schedule r in
  requests (world r1) = requests (world r) /\
  warnings (world r1) = warnings (world r) /\
  dirs (world r1) = dirs (world r) /\
  dom (files (world r)) ⊆ dom (files (world r1)) /\
  length (promises r1) = length (promises r).
Proof.
  revert r. induction schedule as [|i schedule IH]; intros r; simpl; [done|].
  destruct (IH (wake r i)) as (-> & -> & -> & Hdom & ->).
  destruct (wake_effects r i) as (-> & -> & -> & Hdom1 & ->).
  repeat split. by etrans.
Qed.

Lemma first_rejection_tracked (ps : list Download) :
  match first_rejection ps with
  | Some e => Settled (Throw e) ∈ ps
  | None => forall e, Settled (Throw e) ∉ ps
  end.
Proof.
  induction ps as [|d ps IH]; simpl.
  - intros e. apply not_elem_of_nil.
  - destruct d as [[result|e]|zipFilePath pending|zipFilePath response];
      try (destruct (first_rejection ps);
           [by apply elem_of_cons; right
           |intros e' [?|?]%elem_of_cons; [done|by eapply IH]]).
    by apply elem_of_cons; left.
Qed.

Lemma wake_tracked (r : Run) (i : nat) :
  rejection_tracked r -> rejection_tracked (wake r i).
Proof.
  unfold rejection_tracked, wake. intros Hr.
  destruct (promises r !! i) as [d|] eqn:Hd; [|done].
  destruct (resume d (world r)) as [d' w'] eqn:Hresume. simpl.
  assert (i < length (promises r))%nat as Hi by by eapply lookup_lt_Some.
  destruct (rejection r) as [e|].
  - apply list_elem_of_lookup in Hr as [j Hj].
    apply list_elem_of_lookup. exists j.
    destruct (decide (i = j)) as [->|Hne].
    + rewrite Hd in Hj. simplify_eq. simpl in Hresume. simplify_eq.
      by rewrite list_lookup_insert_eq.
    + by rewrite list_lookup_insert_ne.
  - assert (forall e, d' ≠ Settled (Throw e) ->
                      Settled (Throw e) ∉ <[i:=d']> (promises r)) as Hother.
    { intros e Hne [j Hj]%list_elem_of_lookup.
      destruct (decide (i = j)) as [->|Hij].
      - rewrite list_lookup_insert_eq in Hj by done. by simplify_eq.
      - rewrite list_lookup_insert_ne in Hj by done.
        apply (Hr e). apply list_elem_of_lookup. eauto. }
    destruct d' as [[result|e]|zipFilePath pending|zipFilePath response];
      try (intros e'; by apply Hother).
    apply list_elem_of_lookup. exists i. by rewrite list_lookup_insert_eq.
Qed.

Lemma run_tracked (schedule : list nat) (r : Run) :
  rejection_tracked r -> rejection_tracked (fold_left wake schedule r).
Proof.
  revert r. induction schedule as [|i schedule IH]; intros r Hr; [done|].
  simpl. by apply IH, wake_tracked.
Qed.

(** A rejection that [Promise.all] has settled on stays. *)
Lemma run_rejection_stays (schedule : list nat) (r : Run) (e : error) :
  rejection r = Some e -> rejection (fold_left wake schedule r) = Some e.
Proof.
  revert r. induction schedule as [|i schedule IH]; intros r Hr; [done|].
  simpl. apply IH. unfold wake.
  destruct (promises r !! i) as [d|]; [|done].
  destruct (resume d (world r)) as [d' w']. simpl. by rewrite Hr.
Qed.

(** Each wake-up brings a promise one [await] closer to its end. *)
Lemma run_steps_left (schedule : list nat) (r : Run) (i : nat) (d : Download) :
  promises r !! i = Some d ->
  exists d', promises (fold_left wake schedule r) !! i = Some d' /\
    (steps_left d' <= steps_left d - count_occ Nat.eq_dec schedule i)%nat.
Proof.
  revert r d. induction schedule as [|j schedule IH]; intros r d Hd; simpl.
  - exists d. split; [done|lia].
  - assert (exists d1, promises (wake r j) !! i = Some d1 /\
              (steps_left d1
               <= steps_left d - (if Nat.eq_dec j i then 1 else 0))%nat)
      as (d1 & Hd1 & Hsteps).
    { unfold wake. destruct (Nat.eq_dec j i) as [->|Hne].
      - rewrite Hd. pose proof (resume_steps_left d (world r)) as Hle.
        destruct (resume d (world r)) as [d' w']. simpl in *.
        exists d'. split; [|lia].
        apply list_lookup_insert_eq. by eapply lookup_lt_Some.
      - destruct (promises r !! j) as [dj|]; [|exists d; split; [done|lia]].
        destruct (resume dj (world r)) as [d' w']. simpl.
        exists d. split; [|lia]. by rewrite list_lookup_insert_ne. }
    destruct (IH (wake r j) d1 Hd1) as (d' & Hd' & Hle).
    exists d'. split; [done|]. destruct (Nat.eq_dec j i); lia.
Qed.

Lemma steps_left_settled (d : Download) :
  steps_left d = 0%nat -> settled d = true.
Proof. by destruct d. Qed.

Lemma steps_left_bound (d : Download) : (steps_left d <= 2)%nat.
Proof. destruct d; simpl; lia. Qed.

Lemma resume_twice_settled (d : Download) (w : World) :
  resume (resume_twice d w).1 (resume_twice d w).2 = resume_twice d w.
Proof.
  unfold resume_twice.
  pose proof (resume_steps_left d w) as H1.
  destruct (resume d w) as [d1 w1]. simpl in H1.
  pose proof (resume_steps_left d1 w1) as H2.
  destruct (resume d1 w1) as [d2 w2] eqn:H12. simpl in *.
  apply resume_settled, steps_left_settled.
  pose proof (steps_left_bound d). lia.
Qed.

(** Whether a wake-up succeeds depends on the directories alone. *)
Lemma resume_dirs (d : Download) (w w' : World) :
  dirs w = dirs w' -> (resume d w).1 = (resume d w').1.
Proof.
  intros Hd.
  destruct d as [result|zipFilePath [response|e]|zipFilePath response];
    simpl; try done.
  destruct (res_arrayBuffer response) as [body|e]; simpl; [|done].
  unfold writeFileSync, is_dir. rewrite Hd.
  destruct (bool_decide (zipFilePath ∈ dirs w')); [done|].
  by destruct (forallb _ _).
Qed.

Lemma resume_twice_dirs (d : Download) (w w' : World) :
  dirs w = dirs w' -> (resume_twice d w).1 = (resume_twice d w').1.
Proof.
  intros Hd. unfold resume_twice.
  pose proof (resume_dirs d w w' Hd) as H1.
  destruct (resume_effects d w) as (_ & _ & Hd1 & _).
  destruct (resume_effects d w') as (_ & _ & Hd1' & _).
  destruct (resume d w) as [d1 w1], (resume d w') as [d1' w1'].
  simpl in *. subst d1'. apply resume_dirs. congruence.
Qed.

(** Woken often enough, a promise ends as it would if it were woken twice
    on its own, whatever becomes of the others. *)
Lemma run_ends_alone (schedule : list nat) (r : Run) (i : nat)
    (d : Download) :
  promises r !! i = Some d ->
  (steps_left d <= count_occ Nat.eq_dec schedule i)%nat ->
  promises (fold_left wake schedule r) !! i
  = Some (resume_twice d (world r)).1.
Proof.
  revert r d. induction schedule as [|j schedule IH]; intros r d Hd Hsteps.
  - simpl in *. unfold resume_twice.
    assert (settled d = true) as Hs by (apply steps_left_settled; lia).
    by rewrite !resume_settled.
  - simpl. simpl in Hsteps.
    assert (i < length (promises r))%nat as Hi by by eapply lookup_lt_Some.
    destruct (Nat.eq_dec j i) as [->|Hne].
    + pose proof (resume_steps_left d (world r)) as Hle.
      pose proof (resume_twice_settled d (world r)) as Htwice.
      rewrite (IH (wake r i) (resume d (world r)).1).
      * unfold wake. rewrite Hd. unfold resume_twice in *.
        destruct (resume d (world r)) as [d1 w1]. simpl.
        destruct (resume d1 w1) as [d2 w2]. simpl in *. by rewrite Htwice.
      * unfold wake. rewrite Hd.
        destruct (resume d (world r)) as [d1 w1]. simpl.
        by apply list_lookup_insert_eq.
      * lia.
    + rewrite (IH (wake r j) d).
      * f_equal. apply resume_twice_dirs.
        by destruct (wake_effects r j) as (_ & _ & ? & _).
      * unfold wake. destruct (promises r !! j) as [dj|]; [|done].
        destruct (resume dj (world r)) as [d' w']. simpl.
        by rewrite list_lookup_insert_ne.
      * done.
Qed.

(** The ways a wake-up can go. *)
Lemma resume_cases (d : Download) (w : World) :
  resume d w = (d, w) /\ settled d = true \/
  (exists zip e,
     d = AwaitFetch zip (Throw e) /\ resume d w = (Settled (Throw e), w)) \/
  (exists zip response,
     d = AwaitFetch zip (Ok response) /\
     resume d w = (AwaitArrayBuffer zip response, w)) \/
  (exists zip response e w',
     d = AwaitArrayBuffer zip response /\
     resume d w = (Settled (Throw e), w') /\ files w' = files w) \/
  (exists zip response body w',
     d = AwaitArrayBuffer zip response /\
     res_arrayBuffer response = Ok body /\
     resume d w = (Settled (Ok (Some response)), w') /\
     files w' = <[zip := body]> (files w)).
Proof.
  destruct d as [result|zip [response|e]|zip response]; simpl.
  - by left.
  - right. right. left. by eexists _, _.
  - right. left. by eexists _, _.
  - destruct (res_arrayBuffer response) as [body|e] eqn:Hbody.
    + unfold writeFileSync. destruct (is_dir w zip).
      * right. right. right. left. by eexists _, _, _, _.
      * destruct (forallb _ _).
        -- right. right. right. right. by eexists _, _, _, _.
        -- right. right. right. left. by eexists _, _, _, _.
    + right. right. right. left. by eexists _, _, _, _.
Qed.

Lemma NoDup_omap_lookup {A B} (f : A -> option B) (l : list A)
    (i j : nat) (x y : A) (b : B) :
  NoDup (omap f l) ->
  l !! i = Some x -> l !! j = Some y -> f x = Some b -> f y = Some b ->
  i = j.
Proof.
  revert i j. induction l as [|a l IH]; intros i j Hnd Hi Hj Hx Hy; [done|].
  simpl in Hnd.
  assert (forall k z, l !! k = Some z -> f z = Some b -> b ∈ omap f l) as Hin.
  { intros k z Hk Hz. apply list_elem_of_omap. exists z. split; [|done].
    by eapply list_elem_of_lookup_2. }
  destruct i as [|i], j as [|j]; simpl in Hi, Hj; simplify_eq.
  - done.
  - rewrite Hx in Hnd. apply NoDup_cons in Hnd as [Hnotin _].
    destruct Hnotin. by eapply Hin.
  - rewrite Hy in Hnd. apply NoDup_cons in Hnd as [Hnotin _].
    destruct Hnotin. by eapply Hin.
  - f_equal. apply IH; try done.
    destruct (f a); [by apply NoDup_cons in Hnd as [_ ?]|done].
Qed.

Lemma tracks_path (exact : bool) (fs : gmap string bytes) (d0 d : Download)
    (zip : string) :
  tracks exact fs d0 d -> pending_path d = Some zip ->
  pending_path d0 = Some zip.
Proof.
  intros [->|[(z & response & -> & ->)|[(e & ->)|(z & response & body & _
                                                  & _ & -> & _)]]]; done.
Qed.

(** A wake-up keeps every promise on its track. *)
Lemma wake_tracks (exact : bool) (launched : list Download) (r : Run)
    (j : nat) :
  (exact = true -> NoDup (omap pending_path launched)) ->
  Forall2 (tracks exact (files (world r))) launched (promises r) ->
  Forall2 (tracks exact (files (world (wake r j)))) launched
          (promises (wake r j)).
Proof.
  intros Hnd Hall. unfold wake.
  destruct (promises r !! j) as [dj|] eqn:Hj; [|done].
  destruct (Forall2_lookup_r _ _ _ _ _ Hall Hj) as (d0j & H0j & Htj).
  apply Forall2_same_length_lookup in Hall as [Hlen Hall].
  assert (forall fs' i d0 d,
            i <> j -> launched !! i = Some d0 -> promises r !! i = Some d ->
            (fs' = files (world r) \/
             exists zip body, pending_path dj = Some zip /\
                              fs' = <[zip := body]> (files (world r))) ->
            tracks exact fs' d0 d) as Hothers.
  { intros fs' i d0 d Hij H0 Hd Hfs. specialize (Hall i d0 d H0 Hd).
    destruct Hfs as [->|(zipj & bodyj & Hpath & ->)]; [done|].
    destruct Hall as [?|[?|[?|(zip & response & body & Hd0 & Hbody & -> & Harch)]]];
      [by left|by right; left|by right; right; left|].
    right. right. right. exists zip, response, body. repeat split; try done.
    unfold archived in *. destruct exact.
    - rewrite lookup_insert_ne; [done|]. intros ->.
      apply Hij. apply (NoDup_omap_lookup pending_path launched i j d0 d0j zip);
        try done; [by apply Hnd| |by eapply tracks_path].
      by destruct Hd0 as [->| ->].
    - by apply lookup_insert_is_Some'; right. }
  destruct (resume_cases dj (world r))
    as [[Hres _]|[(zip & e & -> & Hres)|[(zip & response & -> & Hres)
       |[(zip & response & e & w' & -> & Hres & Hfs)
        |(zip & response & body & w' & -> & Hbody & Hres & Hfs)]]]];
    rewrite Hres; simpl;
    apply Forall2_same_length_lookup;
    (split; [by rewrite length_insert|]); intros i d0 d H0 Hd;
    (destruct (decide (i = j)) as [->|Hij];
     [rewrite list_lookup_insert_eq in Hd by (by eapply lookup_lt_Some);
      rewrite H0j in H0; simplify_eq
     |rewrite list_lookup_insert_ne in Hd by done]).
  - done.
  - apply (Hothers _ i); auto.
  - right. right. left. by eexists.
  - apply (Hothers _ i); auto.
  - destruct Htj as [<-|[(? & ? & _ & ?)|[(? & ?)|(? & ? & ? & _ & _ & ? & _)]]];
      try done.
    right. left. by eexists _, _.
  - apply (Hothers _ i); auto.
  - right. right. left. by eexists.
  - apply (Hothers _ i); auto.
  - right. right. right. exists zip, response, body.
    split; [|split; [done|split; [done|]]].
    + destruct Htj as [<-|[(? & ? & -> & ?)|[(? & ?)|(? & ? & ? & _ & _ & ? & _)]]];
        simplify_eq; auto.
    + unfold archived. rewrite Hfs. destruct exact.
      * by rewrite lookup_insert_eq.
      * rewrite lookup_insert_eq. by eexists.
  - apply (Hothers _ i); auto. right. exists zip, body. by rewrite Hfs.
Qed.

Lemma run_tracks (exact : bool) (launched : list Download)
    (schedule : list nat) (r : Run) :
  (exact = true -> NoDup (omap pending_path launched)) ->
  Forall2 (tracks exact (files (world r))) launched (promises r) ->
  Forall2 (tracks exact (files (world (fold_left wake schedule r)))) launched
          (promises (fold_left wake schedule r)).
Proof.
  intros Hnd. revert r.
  induction schedule as [|j schedule IH]; intros r Hall; [done|].
  simpl. by apply IH, wake_tracks.
Qed.

(** A fulfilled download has its archive on disk. *)
Lemma run_archived (exact : bool) (launched : list Download)
    (schedule : list nat) (r : Run) (i : nat) (zip : string)
    (response response' : Response) :
  (exact = true -> NoDup (omap pending_path launched)) ->
  promises r = launched ->
  launched !! i = Some (AwaitFetch zip (Ok response)) ->
  promises (fold_left wake schedule r) !! i
  = Some (Settled (Ok (Some response'))) ->
  response' = response /\
  exists body,
    res_arrayBuffer response = Ok body /\
    archived exact (files (world (fold_left wake schedule r))) zip body.
Proof.
  intros Hnd Hr H0 Hd.
  assert (Forall2 (tracks exact (files (world r))) launched (promises r))
    as Hstart.
  { rewrite Hr. apply Forall2_same_length_lookup. split; [done|].
    intros k d0 d Hk0 Hk. left. congruence. }
  pose proof (run_tracks exact launched schedule r Hnd Hstart) as Hall.
  apply Forall2_same_length_lookup in Hall as [_ Hall].
  destruct (Hall i _ _ H0 Hd)
    as [?|[(? & ? & _ & ?)|[(? & ?)|(z & resp & body & Hd0 & Hbody & Heq & Harch)]]];
    try done.
  simplify_eq. destruct Hd0 as [?|?]; simplify_eq. split; [done|].
  by exists body.
Qed.

(** Of the promises rejected before [Promise.all] is called, the first of
    the array counts. *)
Lemma first_rejection_first (ps : list Download) (i : nat) (e : error) :
  ps !! i = Some (Settled (Throw e)) ->
  (forall j e', (j < i)%nat -> ps !! j <> Some (Settled (Throw e'))) ->
  first_rejection ps = Some e.
Proof.
  revert i. induction ps as [|d ps IH]; intros i Hi Hbefore; [done|].
  destruct i as [|i]; simpl in Hi.
  - by simplify_eq.
  - assert (forall e', d <> Settled (Throw e')) as Hd.
    { intros e' ->. by apply (Hbefore 0%nat e'); [lia|]. }
    assert (first_rejection ps = Some e) as Hrest.
    { apply (IH i Hi). intros j e' Hj. apply (Hbefore (S j) e'). lia. }
    simpl. destruct d as [[result|e']|? ?|? ?]; try done. by destruct (Hd e').
Qed.

(** The promise whose wake-up ends in an exception while none has thrown
    yet is the one that [Promise.all] is rejected with. *)
Lemma wake_first_throw (r : Run) (i : nat) (e : error) :
  rejection r = None ->
  promises (wake r i) !! i = Some (Settled (Throw e)) ->
  rejection (wake r i) = Some e.
Proof.
  unfold wake. intros Hnone.
  destruct (promises r !! i) as [d|] eqn:Hd.
  - destruct (resume d (world r)) as [d' w']. simpl.
    rewrite list_lookup_insert_eq by (by eapply lookup_lt_Some).
    intros [= ->]. by rewrite Hnone.
  - by rewrite Hd.
Qed.

Lemma forallb_false_Exists {A} (f : A -> bool) (l : list A) :
  forallb f l = false -> Exists (fun x => f x = false) l.
Proof.
  induction l as [|x l IH]; simpl; [done|].
  destruct (f x) eqn:Hx; simpl.
  - intros Hl. right. by apply IH.
  - intros _. by left.
Qed.

(** C1, as the code has it.  [downloadRestApis] calls [downloadRestApi] on
    every descriptor, in order, before any of the calls is resumed: all the
    requests leave during the launch, and no file is written by then.  The
    returned promise is pending as long as no download has thrown and some
    download is not settled; it is fulfilled, with the destination folder,
    exactly when all downloads are fulfilled.  If some download has thrown,
    the returned promise is rejected, with the error of the download that
    was first to throw (the first of the array, among those that threw
    during the launch), and stays so.  The other downloads go on all the
    same: once every promise has been woken through its two [await]s each
    has settled as it would have on its own, every fulfilled download has
    its archive on disk (with the bytes of its response, if no two downloads
    share a path), and no file written so far is ever removed. *)
Theorem downloadRestApis_all_or_first_error
    (restApi : list RestApi.t) (destinationFolder : option string)
    (schedule : list nat) (w : World) :
  let folder := default DEFAULT_DOWNLOAD_FOLDER destinationFolder in
  let launched := downloadRestApis_run restApi destinationFolder [] w in
  let r := downloadRestApis_run restApi destinationFolder schedule w in
  let result := downloadRestApis restApi destinationFolder schedule w in
  (length (promises launched) = length restApi /\
   files (world launched) = files w /\
   requests (world r) = requests (world launched) /\
   exists sent_now,
     requests (world launched) = (requests w ++ sent_now)%list /\
     forall api fatRaml,
       api ∈ restApi ->
       truthy (RestApi.id api) = true ->
       RestApi.fatRaml api = Some fatRaml ->
       (ensureDirSync folder w).1 = Ok tt ->
       download_request fatRaml ∈ sent_now) /\
  (fair (length restApi) schedule ->
   Forall (fun d => settled d = true) (promises r) /\
   (result = (Fulfilled folder, world r) \/
    exists e, result = (Rejected e, world r)) /\
   forall i d,
     promises launched !! i = Some d ->
     promises r !! i = Some (resume_twice d (world launched)).1) /\
  (Forall (fun d => fulfilled d = true) (promises r) ->
   result = (Fulfilled folder, world r)) /\
  (forall e, Settled (Throw e) ∈ promises r ->
     exists e', result = (Rejected e', world r) /\
                Settled (Throw e') ∈ promises r) /\
  (forall earlier later, schedule = (earlier ++ later)%list ->
     let r0 := downloadRestApis_run restApi destinationFolder earlier w in
     dom (files (world r0)) ⊆ dom (files (world r)) /\
     forall e, rejection r0 = Some e -> result = (Rejected e, world r)) /\
  (forall f, result.1 = Fulfilled f ->
     f = folder /\ Forall (fun d => fulfilled d = true) (promises r)) /\
  (forall e, result.1 = Rejected e -> Settled (Throw e) ∈ promises r) /\
  (result.1 = Pending <->
   (forall e, Settled (Throw e) ∉ promises r) /\
   Exists (fun d => settled d = false) (promises r)) /\
  (forall i zip response response',
     promises launched !! i = Some (AwaitFetch zip (Ok response)) ->
     promises r !! i = Some (Settled (Ok (Some response'))) ->
     response' = response /\
     exists body,
       res_arrayBuffer response = Ok body /\
       is_Some (files (world r) !! zip) /\
       (NoDup (omap pending_path (promises launched)) ->
        files (world r) !! zip = Some body)) /\
  (forall i e,
     promises launched !! i = Some (Settled (Throw e)) ->
     (forall j e', (j < i)%nat ->
        promises launched !! j <> Some (Settled (Throw e'))) ->
     result = (Rejected e, world r)) /\
  (forall earlier i later e,
     schedule = (earlier ++ i :: later)%list ->
     (downloadRestApis restApi destinationFolder earlier w).1 = Pending ->
     promises (downloadRestApis_run restApi destinationFolder
                 (earlier ++ [i]) w) !! i
     = Some (Settled (Throw e)) ->
     result = (Rejected e, world r)).
Proof.
  intros folder launched r result.
  subst launched r result. unfold downloadRestApis, downloadRestApis_run.
  fold folder.
  destruct (launch_effects restApi folder w)
    as (Hlen & Hfiles & sent_now & Hsent & Hreqs).
  destruct (launch restApi folder w) as [ps w1]. simpl in Hlen, Hfiles, Hsent.
  set (r0 := {| promises := ps; rejection := first_rejection ps;
                world := w1 |}).
  assert (rejection_tracked r0) as Htracked0
    by apply first_rejection_tracked.
  pose proof (run_tracked schedule r0 Htracked0) as Htracked.
  destruct (run_effects schedule r0) as (Hrequests & _ & _ & _ & Hlength).
  simpl in Hrequests, Hlength.
  split; [|split; [|split; [|split; [|split; [|split; [|split; [|split;
    [|split; [|split]]]]]]]]].
  - simpl. repeat split; try done. by exists sent_now.
  - intros Hfair.
    assert (Forall (fun d => settled d = true)
                   (promises (fold_left wake schedule r0))) as Hsettled.
    { apply Forall_lookup. intros i d' Hd'.
      assert (i < length ps)%nat as Hi
        by (rewrite <- Hlength; by eapply lookup_lt_Some).
      destruct (lookup_lt_is_Some_2 ps i Hi) as [d Hd].
      destruct (run_steps_left schedule r0 i d Hd) as (d'' & Hd'' & Hle).
      rewrite Hd' in Hd''. simplify_eq. apply steps_left_settled.
      pose proof (steps_left_bound d). pose proof (Hfair i ltac:(lia)). lia. }
    split; [done|]. split.
    + unfold all_then. unfold rejection_tracked in Htracked.
      destruct (rejection (fold_left wake schedule r0)) as [e|]; [by eauto|].
      left. replace (forallb fulfilled (promises (fold_left wake schedule r0)))
        with true; [done|].
      symmetry. apply forallb_forall. intros d Hd.
      apply list_elem_of_In in Hd.
      eapply Forall_forall in Hsettled; [|exact Hd].
      destruct d as [[result|e]|? ?|? ?]; try done.
      by destruct (Htracked e).
    + simpl. intros i d Hd.
      apply (run_ends_alone schedule r0 i d Hd).
      assert (i < length restApi)%nat as Hi
        by (rewrite <- Hlen; by eapply lookup_lt_Some).
      pose proof (steps_left_bound d). pose proof (Hfair i Hi). lia.
  - intros Hall. unfold all_then. unfold rejection_tracked in Htracked.
    destruct (rejection (fold_left wake schedule r0)) as [e|].
    + eapply Forall_forall in Hall; [|exact Htracked]. done.
    + replace (forallb fulfilled (promises (fold_left wake schedule r0)))
        with true; [done|].
      symmetry. apply forallb_forall. intros d Hd.
      eapply Forall_forall in Hall; [exact Hall|]. by apply list_elem_of_In.
  - intros e He. unfold all_then. unfold rejection_tracked in Htracked.
    destruct (rejection (fold_left wake schedule r0)) as [e'|].
    + by exists e'.
    + by destruct (Htracked e).
  - intros earlier later ->. rewrite fold_left_app. simpl.
    destruct (run_effects later (fold_left wake earlier r0))
      as (_ & _ & _ & Hdom & _).
    split; [done|]. intros e He. unfold all_then.
    by rewrite (run_rejection_stays later _ e He).
  - simpl. unfold all_then. intros f.
    destruct (rejection (fold_left wake schedule r0)) as [e|]; [done|].
    destruct (forallb fulfilled _) eqn:Hall; [|done].
    intros [= <-]. split; [done|].
    apply Forall_forall. intros d Hd.
    eapply forallb_forall in Hall; [exact Hall|]. by apply list_elem_of_In.
  - simpl. unfold all_then. unfold rejection_tracked in Htracked. intros e.
    destruct (rejection (fold_left wake schedule r0)) as [e'|].
    + by intros [= <-].
    + by destruct (forallb fulfilled _).
  - simpl. unfold all_then. unfold rejection_tracked in Htracked.
    destruct (rejection (fold_left wake schedule r0)) as [e|].
    + split; [done|]. intros [Hnone _]. by destruct (Hnone e).
    + destruct (forallb fulfilled _) eqn:Hall.
      * split; [done|]. intros [_ Hex].
        apply Exists_exists in Hex as (d & Hd & Hs).
        eapply forallb_forall in Hall; [|by apply list_elem_of_In].
        by destruct d as [[?|?]|? ?|? ?].
      * split; [|done]. intros _. split; [done|].
        apply forallb_false_Exists in Hall.
        apply Exists_exists in Hall as (d & Hd & Hf).
        apply Exists_exists. exists d. split; [done|].
        destruct d as [[?|e]|? ?|? ?]; try done.
        by destruct (Htracked e).
  - simpl. intros i zip response response' H0 Hd.
    destruct (run_archived false ps schedule r0 i zip response response')
      as (-> & body & Hbody & Harch); try done.
    split; [done|]. exists body. split; [done|]. split; [done|].
    intros Hnd.
    destruct (run_archived true ps schedule r0 i zip response response)
      as (_ & body' & Hbody' & Harch'); try done.
    simpl in Harch'. congruence.
  - simpl. intros i e Hi Hbefore. unfold all_then.
    rewrite (run_rejection_stays schedule r0 e); [done|].
    by apply (first_rejection_first ps i e).
  - simpl. intros earlier i later e -> Hpending Hthrown.
    rewrite fold_left_app in Hthrown. simpl in Hthrown.
    change (i :: later) with ([i] ++ later)%list.
    rewrite app_assoc, fold_left_app. unfold all_then at 1.
    rewrite (run_rejection_stays later _ e); [done|].
    rewrite fold_left_app. simpl. apply wake_first_throw; [|done].
    unfold all_then in Hpending.
    destruct (rejection (fold_left wake earlier r0)); [done|done].
Qed.

End Aggregate.

(** ** The properties on the sample registry *)

Lemma searchExchange_two_assets :
  exists shop cart,
    searchExchange "token" "shop" Sample.catalogue
    = (Ok [shop; cart], sent (search_request "token" "shop") Sample.catalogue)
    /\ describes Sample.shop shop /\ describes Sample.cart cart /\
    RestApi.id shop = VStr "7" /\
    RestApi.assetId shop = VStr "shop" /\
    own (RestApi.categories shop) !! "Family" = Some (VStr "Shopper") /\
    own (RestApi.categories shop) !! "Visibility" = Some (VStr "External") /\
    own (RestApi.categories shop) !! "__proto__" = None /\
    prototype (RestApi.categories shop) = ObjectPrototype /\
    RestApi.fatRaml shop = Some (fileInfo_of Sample.fat_new) /\
    RestApi.assetId cart = VStr "cart" /\
    RestApi.version cart = VStr "0.3.0".
Proof.
  destruct (searchExchange_maps_every_asset "token" "shop" Sample.catalogue
              (Sample.answering 200 "OK" (VArr [Sample.shop; Sample.cart]) [])
              [Sample.shop; Sample.cart] eq_refl eq_refl)
    as (apis & Hrun & _ & Hall).
  { repeat constructor; eexists _, _; repeat split; by repeat constructor. }
  apply Forall2_cons_inv_l in Hall as (shop & apis1 & Hshop & Hall & ->).
  apply Forall2_cons_inv_l in Hall as (cart & apis2 & Hcart & Hall & ->).
  apply Forall2_nil_inv_l in Hall as ->.
  exists shop, cart. do 3 (split; [done|]).
  destruct Hshop as (Hid & _ & _ & _ & _ & Hasset & _ & Hcats & Hfat).
  destruct Hcart as (_ & _ & _ & _ & _ & Hasset' & Hversion' & _).
  destruct (Hcats _ eq_refl) as [Hlookup Hproto].
  destruct Hproto as [Hnone Hobject].
  { vm_compute. intros Hin.
    repeat (apply elem_of_cons in Hin as [Hin|Hin]; [discriminate Hin|]).
    by apply elem_of_nil in Hin. }
  rewrite Hid, Hasset, Hasset', Hversion', Hnone, Hobject, (Hfat _ eq_refl).
  rewrite !Hlookup by done. by vm_compute.
Defined.


(** C6: the registry lists a shop with the category pairs [Family] and
    [__proto__].  [searchExchange] returns one descriptor for it, and its
    categories hold the pair [Family] alone: the assignment to [__proto__]
    has gone to the setter of [Object.prototype], which ignores a string, and
    the pair is in no mapping. *)
Theorem searchExchange_loses_proto_category :
  field Sample.shop_proto "categories"
  = VArr [Sample.pair "Family" "Shopper"; Sample.pair "__proto__" "Internal"] /\
  (searchExchange "token" "shop" Sample.catalogue_proto).1
  = Ok [Sample.shop_proto_api] /\
  own (RestApi.categories Sample.shop_proto_api) !! "Family"
  = Some (VStr "Shopper") /\
  own (RestApi.categories Sample.shop_proto_api) !! "__proto__" = None /\
  size (own (RestApi.categories Sample.shop_proto_api)) = 1%nat.
Proof. by vm_compute. Qed.

Lemma getSpecificApi_without_and_with_version :
  (getSpecificApi "token" "org" "shop" (VStr "") = NotAPromise None /\
   await (getSpecificApi "token" "org" "shop" (VStr ""))
         (Sample.registry_of Sample.shop)
   = (Ok None, Sample.registry_of Sample.shop)) /\
  exists r,
    await (getSpecificApi "token" "org" "shop" (VStr "1.0.0"))
          (Sample.registry_of Sample.shop)
    = (Ok (Some r),
       sent (asset_request "token" "org/shop/1.0.0")
            (Sample.registry_of Sample.shop)) /\
    RestApi.id r = VStr "7" /\
    RestApi.name r = VStr "shop" /\
    RestApi.groupId r = VStr "org" /\
    RestApi.assetId r = VStr "shop" /\
    RestApi.version r = VStr "1.0.0" /\
    own (RestApi.categories r) !! "Family" = Some (VStr "Shopper") /\
    own (RestApi.categories r) !! "Visibility" = Some (VStr "External") /\
    own (RestApi.categories r) !! "Audience" = None /\
    RestApi.fatRaml r = Some (fileInfo_of Sample.fat_new).
Proof.
  split.
  - apply (getSpecificApi_absent_or_mapped "token" "org" "shop" (VStr "")
             (Sample.registry_of Sample.shop)).
    reflexivity.
  - destruct (proj2 (getSpecificApi_absent_or_mapped "token" "org" "shop"
                       (VStr "1.0.0") (Sample.registry_of Sample.shop))
                eq_refl) as (_ & _ & _ & Hanswered).
    destruct (Hanswered (Sample.answering 200 "OK" Sample.shop []) eq_refl)
      as (_ & _ & Hok).
    destruct (Hok Sample.shop eq_refl eq_refl) as [_ Hmapped].
    destruct Hmapped
      as (r & Hrun & Hid & Hname & _ & _ & Hgroup & Hasset & Hversion
          & Hcats & Hfat).
    { split; [done|]. eexists _, _. repeat split; by repeat constructor. }
    destruct (Hcats _ eq_refl) as [Hlookup _].
    exists r. split; [exact Hrun|].
    rewrite Hid, Hname, Hgroup, Hasset, Hversion, (Hfat _ eq_refl).
    rewrite !Hlookup by done. by vm_compute.
Defined.

Lemma getVersionByDeployment_production :
  getVersionByDeployment "token" Sample.shop_api Sample.production
    (Sample.registry_of Sample.shop)
  = (Ok (VStr "2.0.0"),
     sent (asset_request "token" "org/shop") (Sample.registry_of Sample.shop)).
Proof.
  apply (proj2 (getVersionByDeployment_first_named_version "token"
                  Sample.shop_api Sample.production
                  (Sample.registry_of Sample.shop)
                  (sent (asset_request "token" "org/shop")
                        (Sample.registry_of Sample.shop))
                  Sample.shop eq_refl)
           [Sample.instance "prod-1" "2.0.0"; Sample.instance "stage" "1.9.0"]).
  - reflexivity.
  - reflexivity.
  - reflexivity.
  - by repeat constructor.
Defined.

(** C5: the registry holds a shop whose first instance deployed to
    production ([prod-1], which [/^prod/] matches) has an empty version, and
    whose second ([prod-2]) has version 2.0.0.  The version of the first
    matching instance is the empty string; [getVersionByDeployment] returns
    2.0.0, the version of the second. *)
Theorem getVersionByDeployment_not_first_match :
  field Sample.shop_unversioned "instances"
  = VArr [Sample.instance "prod-1" ""; Sample.instance "prod-2" "2.0.0"] /\
  find (deployed_to Sample.production)
       [Sample.instance "prod-1" ""; Sample.instance "prod-2" "2.0.0"]
  = Some (Sample.instance "prod-1" "") /\
  field (Sample.instance "prod-1" "") "version" = VStr "" /\
  (getVersionByDeployment "token" Sample.shop_api Sample.production
     (Sample.registry_of Sample.shop_unversioned)).1
  = Ok (VStr "2.0.0").
Proof. by vm_compute. Qed.

Lemma getVersionByDeployment_absent_or_ignored :
  (exists asset,
     getAsset "token" "org/shop" Sample.registry_lost
     = (Ok asset,
        (getVersionByDeployment "token" Sample.shop_api Sample.production
           Sample.registry_lost).2) /\
     (truthy asset = false /\ VUndefined = VUndefined \/
      truthy asset = true /\ VUndefined = field asset "version")) /\
  pickVersion Sample.production
    (asset_with [("version", VStr "1.0.0")]
       [Sample.instance "prod-1" ""; Sample.instance "prod-2" "2.0.0"])
  = pickVersion Sample.production
      (asset_with [("version", VStr "1.0.0")]
         [Sample.instance "prod-2" "2.0.0"]).
Proof.
  split.
  - apply (proj1 (getVersionByDeployment_empty_only_from_asset "token"
                    Sample.shop_api Sample.production Sample.registry_lost)
             VUndefined).
    + reflexivity.
    + reflexivity.
  - apply (proj2 (getVersionByDeployment_empty_only_from_asset "token"
                    Sample.shop_api Sample.production Sample.registry_lost)
             [("version", VStr "1.0.0")] []
             (Sample.instance "prod-1" "")
             [Sample.instance "prod-2" "2.0.0"]).
    + reflexivity.
    + reflexivity.
    + reflexivity.
Defined.

(** Nothing is deployed and the asset's own version is empty: the result is
    an empty version string. *)
Lemma getVersionByDeployment_empty_version :
  (getVersionByDeployment "token" Sample.shop_api Sample.production
     (Sample.registry_of Sample.shop_blank)).1
  = Ok (VStr "") /\
  truthy (VStr "") = false.
Proof. by vm_compute. Qed.

(** X22: a pattern with the [g] flag remembers where its last match ended.
    After [/^prod/g] has matched [prod-1], whose version is empty, it looks
    for the next match from position 4 on and finds none in [prod-2]: the
    result is the asset's own version, 1.0.0.  Without the first instance,
    or without the flag, the result is the version of [prod-2]. *)
Theorem getVersionByDeployment_global_pattern :
  (getVersionByDeployment "token" Sample.shop_api Sample.production_g
     (Sample.registry_of Sample.shop_unversioned)).1
  = Ok (VStr "1.0.0") /\
  (getVersionByDeployment "token" Sample.shop_api Sample.production
     (Sample.registry_of Sample.shop_unversioned)).1
  = Ok (VStr "2.0.0") /\
  pickVersion Sample.production_g
    (asset_with [("version", VStr "1.0.0")]
       [Sample.instance "prod-2" "2.0.0"])
  = Ok (VStr "2.0.0").
Proof. by vm_compute. Qed.

Lemma downloadRestApi_skips_unlisted :
  exists w',
    downloadRestApi (platform := Sample.plain_paths) Sample.unlisted_api None
                    Sample.cdn = (Ok None, w') /\
    requests w' = requests Sample.cdn /\
    files w' = files Sample.cdn /\
    dirs w' = dirs Sample.cdn /\
    warnings w'
    = (warnings Sample.cdn
       ++ [(missing_id_message Sample.unlisted_api,
            "Please download it manually from https://anypoint.mulesoft.com/exchange/org/draft and update the relevant details in apis/api-config.json")])%list.
Proof.
  apply (downloadRestApi_skips_missing_id (platform := Sample.plain_paths)
           Sample.unlisted_api None Sample.cdn).
  reflexivity.
Defined.

Lemma downloadRestApi_writes_shop_archive :
  let w' := (downloadRestApi (platform := Sample.plain_paths) Sample.shop_api
               (Some "out/raml") Sample.cdn).2 in
  exists fatRaml response body,
    RestApi.fatRaml Sample.shop_api = Some fatRaml /\
    answer Sample.cdn (download_request fatRaml) = Ok response /\
    Some (Sample.answering 200 "OK" VNull Sample.zip_of_shop)
    = Some response /\
    res_arrayBuffer response = Ok body /\
    requests w' = (requests Sample.cdn ++ [download_request fatRaml])%list /\
    dirs w' = dirs Sample.cdn ∪ list_to_set ["out/raml"; "out"] /\
    "out/raml" ∈ dirs w' /\
    files w' = <["out/raml/shop.zip" := body]> (files Sample.cdn) /\
    files w' !! "out/raml/shop.zip" = Some body /\
    length <$> files w' !! "out/raml/shop.zip" = Some (length body) /\
    warnings w' = warnings Sample.cdn.
Proof.
  apply (downloadRestApi_writes_archive (platform := Sample.plain_paths)
           Sample.shop_api (Some "out/raml") Sample.cdn).
  - reflexivity.
  - vm_compute. reflexivity.
Defined.

Lemma downloadRestApi_faults_on_bare :
  (exists e w',
     downloadRestApi (platform := Sample.plain_paths) Sample.bare_api None
                     Sample.cdn = (Throw e, w') /\
     (forall w1,
        ensureDirSync (platform := Sample.plain_paths) "download" Sample.cdn
        = (Ok tt, w1) ->
        e = TypeError
              "Cannot read properties of undefined (reading 'externalLink')"
        /\ w' = w1) /\
     requests w' = requests Sample.cdn /\ files w' = files Sample.cdn /\
     warnings w' = warnings Sample.cdn) /\
  (exists api e w',
     convertResponseToRestApi Sample.shop_oas_only = Ok api /\
     downloadRestApi (platform := Sample.plain_paths) api None Sample.cdn
     = (Throw e, w') /\
     requests w' = requests Sample.cdn /\ files w' = files Sample.cdn /\
     warnings w' = warnings Sample.cdn).
Proof.
  split.
  - apply (proj1 (downloadRestApi_faults_without_fatRaml
                    (platform := Sample.plain_paths))
             Sample.bare_api None Sample.cdn); reflexivity.
  - apply (proj2 (proj2 (downloadRestApi_faults_without_fatRaml
                           (platform := Sample.plain_paths)))
             Sample.shop_oas_only [Sample.oas] None Sample.cdn).
    + split; [done|]. eexists _, _. repeat split; by repeat constructor.
    + reflexivity.
    + reflexivity.
    + by repeat constructor.
Defined.

(** Three downloads, one of them skipped, woken in a mixed order: the
    folder.  Two downloads that nothing has woken yet: pending, with no file
    on disk.  A descriptor that has no [fatRaml] in front of the shop: the
    rejection is there from the launch, and the archive of the shop is
    written all the same. *)
Lemma downloadRestApis_shop_and_cart :
  downloadRestApis (platform := Sample.plain_paths)
    [Sample.shop_api; Sample.unlisted_api; Sample.cart_api] None
    [2; 0; 0; 2]%nat Sample.cdn
  = (Fulfilled "download",
     world (downloadRestApis_run (platform := Sample.plain_paths)
              [Sample.shop_api; Sample.unlisted_api; Sample.cart_api] None
              [2; 0; 0; 2]%nat Sample.cdn)) /\
  ((downloadRestApis (platform := Sample.plain_paths)
      [Sample.shop_api; Sample.cart_api] None [] Sample.cdn).1 = Pending /\
   files (downloadRestApis (platform := Sample.plain_paths)
            [Sample.shop_api; Sample.cart_api] None [] Sample.cdn).2
   = files Sample.cdn) /\
  ((downloadRestApis (platform := Sample.plain_paths)
      [Sample.bare_api; Sample.shop_api] None [1; 1]%nat Sample.cdn).1
   = Rejected
       (TypeError
          "Cannot read properties of undefined (reading 'externalLink')") /\
   files (downloadRestApis (platform := Sample.plain_paths)
            [Sample.bare_api; Sample.shop_api] None [1; 1]%nat Sample.cdn).2
     !! "download/shop.zip"
   = Some Sample.zip_of_shop).
Proof.
  split; [|split; [split|split]].
  - apply (downloadRestApis_all_or_first_error
             (platform := Sample.plain_paths)
             [Sample.shop_api; Sample.unlisted_api; Sample.cart_api] None
             [2; 0; 0; 2]%nat Sample.cdn).
    vm_compute. by repeat constructor.
  - apply (downloadRestApis_all_or_first_error
             (platform := Sample.plain_paths)
             [Sample.shop_api; Sample.cart_api] None [] Sample.cdn).
    split.
    + intros e He. vm_compute in He.
      repeat (apply elem_of_cons in He as [He|He]; [discriminate He|]).
      by apply elem_of_nil in He.
    + vm_compute. by left.
  - apply (proj1 (downloadRestApis_all_or_first_error
                    (platform := Sample.plain_paths)
                    [Sample.shop_api; Sample.cart_api] None [] Sample.cdn)).
  - rewrite (proj1 (proj2 (proj2 (proj2 (proj2 (proj2 (proj2 (proj2 (proj2
               (proj2
               (downloadRestApis_all_or_first_error
                  (platform := Sample.plain_paths)
                  [Sample.bare_api; Sample.shop_api] None [1; 1]%nat
                  Sample.cdn))))))))))
               0%nat
               (TypeError
                  "Cannot read properties of undefined (reading 'externalLink')")
               eq_refl).
    + reflexivity.
    + intros j e' Hj. lia.
  - destruct (proj1 (proj2 (proj2 (proj2 (proj2 (proj2 (proj2 (proj2 (proj2
               (downloadRestApis_all_or_first_error
                  (platform := Sample.plain_paths)
                  [Sample.bare_api; Sample.shop_api] None [1; 1]%nat
                  Sample.cdn)))))))))
               1%nat "download/shop.zip"
               (Sample.answering 200 "OK" VNull Sample.zip_of_shop)
               (Sample.answering 200 "OK" VNull Sample.zip_of_shop)
               eq_refl eq_refl)
      as (_ & body & Hbody & _ & Hexact).
    injection Hbody as <-. apply Hexact.
    vm_compute. apply NoDup_singleton.
Defined.

(** The archive server answers 404: the download is fulfilled all the same,
    the aggregate resolves to the folder, and the page is what is saved. *)
Lemma downloadRestApis_fulfilled_on_404 :
  let answer_404 := Sample.answering 404 "Not Found" VNull
                      Sample.not_found_page in
  let run := downloadRestApis (platform := Sample.plain_paths)
               [Sample.shop_api] (Some "out") [0; 0]%nat Sample.cdn_gone in
  answer Sample.cdn_gone (download_request (fileInfo_of Sample.fat_new))
  = Ok answer_404 /\
  res_ok answer_404 = false /\
  run.1 = Fulfilled "out" /\
  files run.2 !! "out/shop.zip" = Some Sample.not_found_page.
Proof. by vm_compute. Qed.

(** ** Further properties of the readers *)

(** What holds of the start and is kept by every step that does not throw
    holds of the end of a scan that does not throw; and every element then
    let its step through. *)
Lemma forEach_invariant {A S} (P : S -> Prop) (Q : A -> Prop)
    (f : S -> A -> outcome S) (l : list A) (acc r : S) :
  (forall acc x acc', P acc -> f acc x = Ok acc' -> P acc' /\ Q x) ->
  P acc -> forEach f l acc = Ok r -> P r /\ Forall Q l.
Proof.
  intros Hstep. revert acc. induction l as [|x l IH]; intros acc Hacc Hrun.
  - simpl in Hrun. by simplify_eq.
  - simpl in Hrun. destruct (f acc x) as [acc'|e] eqn:Hf; [|done].
    destruct (Hstep acc x acc' Hacc Hf) as [Hacc' Hx].
    destruct (IH acc' Hacc' Hrun) as [Hr Hl]. split; [done|by constructor].
Qed.

Lemma get_ok (v : value) (k : string) (x : value) :
  get v k = Ok x -> nullish v = false.
Proof. by destruct v. Qed.

Lemma array_items_ok (v : value) (l : list value) :
  array_items v = Ok l -> v = VArr l.
Proof. destruct v; simpl; intros; by simplify_eq. Qed.

Lemma getFileByClassifier_ok_inv (files : value) (classifier : string)
    (r : option FileInfo.t) :
  getFileByClassifier files classifier = Ok r ->
  exists l, files = VArr l /\ readable l.
Proof.
  unfold getFileByClassifier. intros Hrun.
  destruct (array_items files) as [l|e] eqn:Hitems; [|done].
  apply array_items_ok in Hitems. exists l. split; [done|].
  simpl in Hrun.
  eapply (forEach_invariant (fun _ => True)
            (fun v => nullish v = false)); [|done|exact Hrun].
  intros acc x acc' _ Hstep. split; [done|].
  simpl in Hstep.
  destruct (get x "classifier") eqn:Hget; simpl in Hstep; [by eapply get_ok|done].
Qed.

Lemma mapCategories_ok_inv (categories : value) (m : Categories) :
  mapCategories categories = Ok m ->
  exists cats, categories = VArr cats /\ keyed cats.
Proof.
  unfold mapCategories. intros Hrun.
  destruct (array_items categories) as [l|e] eqn:Hitems; [|done].
  apply array_items_ok in Hitems. exists l. split; [done|].
  simpl in Hrun.
  eapply (forEach_invariant (fun _ => True)
            (fun c => nullish c = false /\
                      stringifies (field c "key") = true));
    [|done|exact Hrun].
  intros acc x acc' _ Hstep. split; [done|].
  simpl in Hstep.
  destruct (get x "key") as [k|e] eqn:Hget; simpl in Hstep; [|done].
  pose proof (get_ok _ _ _ Hget) as Hx. split; [done|].
  rewrite (get_field _ _ Hx) in Hget. rewrite (get_field _ _ Hx) in Hstep.
  simpl in Hstep. simplify_eq. unfold stringifies.
  by destruct (ToString (field x "key")).
Qed.

Lemma last_filter_Some {A} (P : A -> bool) (l : list A) (x : A) :
  last (List.filter P l) = Some x -> x ∈ l /\ P x = true.
Proof.
  intros Hlast. apply last_Some in Hlast as [l' Hl'].
  assert (In x (List.filter P l)) as Hin
    by (rewrite Hl'; apply in_or_app; right; by left).
  apply filter_In in Hin as [Hin HP]. split; [by apply list_elem_of_In|done].
Qed.

(** X1: [getFileByClassifier] returns a result, instead of throwing, exactly
    when [files] is an array with no [null] or [undefined] entry: it reads
    the classifier of every entry, also after a match.  What it returns is
    then built from an entry of the array and carries, as its classifier, the
    very string asked for. *)
Theorem getFileByClassifier_total_on_arrays
    (files : value) (classifier : string) :
  ((exists r, getFileByClassifier files classifier = Ok r) <->
   (exists l, files = VArr l /\ readable l)) /\
  (forall info,
     getFileByClassifier files classifier = Ok (Some info) ->
     FileInfo.classifier info = VStr classifier /\
     exists l file, files = VArr l /\ file ∈ l /\ info = fileInfo_of file).
Proof.
  split; [split|].
  - intros [r Hr]. by eapply getFileByClassifier_ok_inv.
  - intros (l & -> & Hl). eexists. by apply getFileByClassifier_spec.
  - intros info Hrun.
    destruct (getFileByClassifier_ok_inv _ _ _ Hrun) as (l & -> & Hl).
    rewrite getFileByClassifier_spec in Hrun by done.
    destruct (last (List.filter (has_classifier classifier) l))
      as [file|] eqn:Hlast; simpl in Hrun; [|done].
    apply last_filter_Some in Hlast as [Hin Hc]. simplify_eq. split.
    + unfold has_classifier, strict_eq_str in Hc. simpl.
      destruct (field file "classifier"); try done.
      by apply String.eqb_eq in Hc as ->.
    + by exists l, file.
Qed.

Lemma getFileByClassifier_null_entry :
  (exists r, getFileByClassifier (VArr [Sample.fat_new; Sample.oas])
               "fat-raml" = Ok r) /\
  ~ (exists r, getFileByClassifier (VArr [Sample.fat_new; VNull])
                 "fat-raml" = Ok r).
Proof.
  split.
  - apply (getFileByClassifier_total_on_arrays
             (VArr [Sample.fat_new; Sample.oas]) "fat-raml").
    eexists. split; [done|]. by repeat constructor.
  - intros Hok.
    apply (getFileByClassifier_total_on_arrays
             (VArr [Sample.fat_new; VNull]) "fat-raml") in Hok
      as (l & Hl & Hr).
    simplify_eq. by inversion Hr as [|? ? _ Hnull]; inversion Hnull.
Defined.

(** What an assignment leaves on the object. *)
Lemma assign_own (cats : Categories) (name : string) (v : value) :
  (own (assign cats name v) = <[name := v]> (own cats) \/
   name = "__proto__" /\ own (assign cats name v) = own cats) /\
  (name <> "__proto__" -> prototype (assign cats name v) = prototype cats).
Proof.
  unfold assign. destruct (String.eqb name "__proto__") eqn:Hname; simpl.
  - apply String.eqb_eq in Hname as ->. split; [|done].
    destruct (bool_decide _ || shadows_proto_setter _); simpl.
    + by left.
    + right. split; [done|]. by destruct v.
  - split; [|done]. by left.
Qed.

Lemma mapCategories_dom_size (cats : list value) :
  keyed cats ->
  exists m : Categories,
    mapCategories (VArr cats) = Ok m /\
    length (category_names cats) = length cats /\
    dom (own m) ∖ {["__proto__"]}
    = list_to_set (category_names cats) ∖ {["__proto__"]} /\
    (size (own m) <= length cats)%nat /\
    ("__proto__" ∉ category_names cats ->
       dom (own m) = list_to_set (category_names cats) /\
       prototype m = ObjectPrototype /\
       (NoDup (category_names cats) -> size (own m) = length cats)).
Proof.
  unfold mapCategories, category_names. simpl.
  induction cats as [|c cats IH] using rev_ind; intros Hr.
  - eexists. split; [done|]. simpl. split; [done|]. split; [done|].
    split; [by rewrite map_size_empty|]. intros _.
    split; [by rewrite dom_empty_L|]. split; [done|].
    intros _. by rewrite map_size_empty.
  - apply Forall_app in Hr as [Hr Hc].
    apply Forall_cons in Hc as [[Hc Hkey] _].
    destruct (IH Hr) as (m & Hm & Hlen & Hdom & Hle & Hplain).
    destruct (keyed_key_of c Hkey) as (name & Hname & Hkeyof).
    exists (assign m name (field c "value")).
    rewrite forEach_app, Hm, omap_app, !length_app. simpl.
    rewrite !(get_field _ _ Hc), Hkeyof. simpl. rewrite Hname. simpl.
    split; [done|]. split; [by rewrite Hlen|].
    rewrite list_to_set_snoc_L.
    destruct (assign_own m name (field c "value")) as [Hassign Hproto].
    split; [|split].
    + destruct Hassign as [->|[-> ->]].
      * rewrite dom_insert_L, (difference_union_distr_l_L {[name]}),
          (difference_union_distr_l_L (list_to_set _)), Hdom.
        apply union_comm_L.
      * by rewrite difference_union_distr_l_L, difference_diag_L,
          union_empty_r_L.
    + destruct Hassign as [->|[_ ->]]; [|lia].
      rewrite map_size_insert. destruct (own m !! name); unfold id; lia.
    + intros Hnotin. apply not_elem_of_app in Hnotin as [Hnot1 Hnot2].
      apply not_elem_of_cons in Hnot2 as [Hne _].
      destruct (Hplain Hnot1) as (Hd & Hp & Hnodup).
      rewrite assign_plain by done. simpl.
      rewrite dom_insert_L, Hd. split; [apply union_comm_L|]. split; [done|].
      intros [Hnd [Hnotin _]]%NoDup_app. rewrite map_size_insert.
      assert (own m !! name = None) as ->.
      { apply not_elem_of_dom. rewrite Hd, elem_of_list_to_set.
        intros Hin. apply (Hnotin _ Hin). by left. }
      rewrite (Hnodup Hnd). lia.
Qed.

(** X2: when [mapCategories] returns, every pair has a key that makes a
    name, and the names of the mapping other than [__proto__] are exactly
    the names other than [__proto__] that occur in the pairs, so the mapping
    never has more entries than there are pairs.  When no pair is named
    [__proto__] the names of the mapping are exactly those of the pairs, the
    prototype is that of [{}], and there are as many entries as pairs
    exactly when the names are all different. *)
Theorem mapCategories_names (categories : value) (m : Categories) :
  mapCategories categories = Ok m ->
  exists cats,
    categories = VArr cats /\
    length (category_names cats) = length cats /\
    dom (own m) ∖ {["__proto__"]}
    = list_to_set (category_names cats) ∖ {["__proto__"]} /\
    (size (own m) <= length cats)%nat /\
    ("__proto__" ∉ category_names cats ->
       dom (own m) = list_to_set (category_names cats) /\
       prototype m = ObjectPrototype /\
       (NoDup (category_names cats) -> size (own m) = length cats)).
Proof.
  intros Hrun.
  destruct (mapCategories_ok_inv _ _ Hrun) as (cats & -> & Hr).
  destruct (mapCategories_dom_size cats Hr) as (m' & Hm' & Hrest).
  exists cats. split; [done|]. rewrite Hrun in Hm'. by simplify_eq.
Qed.

Lemma convertResponseToRestApi_ok_inv (apiResponse : value)
    (api : RestApi.t) :
  convertResponseToRestApi apiResponse = Ok api -> asset_shaped apiResponse.
Proof.
  intros Hrun. unfold convertResponseToRestApi in Hrun.
  destruct (nullish apiResponse) eqn:Hnull; [by destruct apiResponse|].
  rewrite !(get_field _ _ Hnull) in Hrun. simpl in Hrun.
  destruct (mapCategories _) as [m|e] eqn:Hcats; [simpl in Hrun|done].
  destruct (getFileByClassifier _ _) as [fat|e] eqn:Hfiles; [|done].
  apply mapCategories_ok_inv in Hcats as (cats & Hcats & Hrc).
  apply getFileByClassifier_ok_inv in Hfiles as (fs & Hfs & Hrf).
  split; [done|]. by exists cats, fs.
Qed.

Lemma mapCategories_two_of_a_name :
  let m := {| own := {["Family" := VStr "Partner"]};
              prototype := ObjectPrototype |} in
  exists cats,
    VArr [Sample.pair "Family" "Shopper"; Sample.pair "Family" "Partner"]
    = VArr cats /\
    length (category_names cats) = length cats /\
    dom (own m) ∖ {["__proto__"]}
    = list_to_set (category_names cats) ∖ {["__proto__"]} /\
    (size (own m) <= length cats)%nat /\
    ("__proto__" ∉ category_names cats ->
       dom (own m) = list_to_set (category_names cats) /\
       prototype m = ObjectPrototype /\
       (NoDup (category_names cats) -> size (own m) = length cats)).
Proof.
  apply (mapCategories_names
           (VArr [Sample.pair "Family" "Shopper";
                  Sample.pair "Family" "Partner"])).
  vm_compute. reflexivity.
Defined.

(** X3: [convertResponseToRestApi] returns a descriptor, instead of
    throwing, exactly when the asset is neither [null] nor [undefined], its
    [categories] and its [files] are arrays with no [null] or [undefined]
    entry, and the key of every category can be made a string; a missing
    [categories] or [files] member makes it throw, and so does a key that is
    an object with a member [toString]. *)
Theorem convertResponseToRestApi_succeeds_iff (apiResponse : value) :
  (exists api, convertResponseToRestApi apiResponse = Ok api)
  <-> asset_shaped apiResponse.
Proof.
  split.
  - intros [api Hrun]. by eapply convertResponseToRestApi_ok_inv.
  - intros Hshape.
    destruct (convertResponseToRestApi_spec _ Hshape) as (api & Hapi & _).
    by exists api.
Qed.

Lemma convertResponseToRestApi_stub_throws :
  ~ (exists api, convertResponseToRestApi Sample.stub = Ok api) /\
  ~ (exists api, convertResponseToRestApi Sample.shop_odd_key = Ok api) /\
  exists api, convertResponseToRestApi Sample.shop = Ok api.
Proof.
  split; [|split].
  - intros Hok.
    apply (convertResponseToRestApi_succeeds_iff Sample.stub) in Hok
      as (_ & cats & fs & Hcats & _).
    discriminate Hcats.
  - intros Hok.
    apply (convertResponseToRestApi_succeeds_iff Sample.shop_odd_key) in Hok
      as (_ & cats & fs & Hcats & Hkeyed & _).
    injection Hcats as <-.
    apply Forall_cons in Hkeyed as [[_ Hkey] _]. discriminate Hkey.
  - apply (convertResponseToRestApi_succeeds_iff Sample.shop).
    split; [done|]. eexists _, _. repeat split; by repeat constructor.
Defined.

Lemma asset_shaped_truthy (asset : value) :
  asset_shaped asset -> truthy asset = true.
Proof. intros (_ & cats & fs & Hcats & _). by destruct asset. Qed.

(** A search that returns has converted every object of the answer. *)
Lemma convert_all_inv (assets : list value) (acc apis : list RestApi.t) :
  forEach (fun (apis : list RestApi.t) restApi =>
             let? api := convertResponseToRestApi restApi in
             Ok (apis ++ [api])%list) assets acc
  = Ok apis ->
  exists converted,
    apis = (acc ++ converted)%list /\
    Forall2 (fun asset api => convertResponseToRestApi asset = Ok api)
            assets converted.
Proof.
  revert acc. induction assets as [|asset assets IH]; intros acc Hrun.
  - simpl in Hrun. simplify_eq. exists []. by rewrite app_nil_r.
  - simpl in Hrun.
    destruct (convertResponseToRestApi asset) as [api|e] eqn:Hapi; [|done].
    simpl in Hrun. destruct (IH _ Hrun) as (converted & -> & Hall).
    exists (api :: converted). split; [by rewrite <- app_assoc|].
    by constructor.
Qed.

(** X4: [searchExchange] is all or nothing, and does not look at the status
    of the answer: when the registry answers, a list is returned exactly
    when the body is an array of well-formed asset objects.  One object
    without [categories] or [files], or a body that is not an array (the
    error object of a refused search, say), and the whole search throws. *)
Theorem searchExchange_all_or_nothing
    (accessToken searchString : string) (w : World) (res : Response) :
  answer w (search_request accessToken searchString) = Ok res ->
  ((exists apis, (searchExchange accessToken searchString w).1 = Ok apis)
   <-> (exists assets,
          res_json res = Ok (VArr assets) /\ Forall asset_shaped assets)).
Proof.
  intros Hnet. unfold answer, search_request in Hnet.
  unfold searchExchange, bind, fetch, lift. rewrite Hnet. split.
  - intros [apis Hrun].
    destruct (res_json res) as [v|e]; [simpl in Hrun|done].
    destruct (array_items v) as [assets|e] eqn:Hitems; [simpl in Hrun|done].
    apply array_items_ok in Hitems as ->. exists assets. split; [done|].
    destruct (convert_all_inv _ _ _ Hrun) as (converted & _ & Hall).
    clear Hrun. induction Hall as [|asset api assets converted Hapi _ IH];
      constructor; [by eapply convertResponseToRestApi_ok_inv|done].
  - intros (assets & -> & Hshape).
    destruct (convert_all assets [] Hshape) as (apis & Hconv & _).
    exists apis. simpl. by rewrite Hconv.
Qed.

Lemma searchExchange_found_and_refused :
  (exists apis, (searchExchange "token" "shop" Sample.catalogue).1 = Ok apis)
  /\ ~ (exists apis,
          (searchExchange "token" "shop" Sample.catalogue_stub).1 = Ok apis).
Proof.
  split.
  - apply (searchExchange_all_or_nothing "token" "shop" Sample.catalogue
             (Sample.answering 200 "OK" (VArr [Sample.shop; Sample.cart]) [])
             eq_refl).
    eexists. split; [done|].
    repeat constructor; eexists _, _; repeat split; by repeat constructor.
  - intros Hok.
    apply (searchExchange_all_or_nothing "token" "shop"
             Sample.catalogue_stub
             (Sample.answering 200 "OK" (VArr [Sample.shop; Sample.stub]) [])
             eq_refl) in Hok as (assets & Hjson & Hshape).
    simpl in Hjson. simplify_eq.
    apply Forall_cons in Hshape as [_ Hshape].
    apply Forall_cons in Hshape as [(_ & cats & fs & Hcats & _) _].
    discriminate Hcats.
Defined.

(** X5: whatever happens, [searchExchange] sends its one request and leaves
    the rest of the world alone: it logs no warning and touches no file,
    also when the search fails.  A failure of the request and a failure to
    parse the body are passed on as they are. *)
Theorem searchExchange_silent
    (accessToken searchString : string) (w : World) :
  (searchExchange accessToken searchString w).2
  = sent (search_request accessToken searchString) w /\
  (forall e,
     answer w (search_request accessToken searchString) = Throw e ->
     (searchExchange accessToken searchString w).1 = Throw e) /\
  (forall res e,
     answer w (search_request accessToken searchString) = Ok res ->
     res_json res = Throw e ->
     (searchExchange accessToken searchString w).1 = Throw e).
Proof.
  unfold searchExchange, bind, fetch, lift, answer, search_request.
  split; [|split].
  - destruct (net w _ _) as [res|e]; [|done].
    by destruct (res_json res) as [v|e].
  - by intros e ->.
  - by intros res e -> ->.
Qed.

Lemma searchExchange_offline :
  searchExchange "token" "shop" Sample.offline
  = (Throw (FetchError
              "request to https://anypoint.mulesoft.com/exchange/api/v2/assets?search=shop failed"),
     sent (search_request "token" "shop") Sample.offline).
Proof.
  destruct (searchExchange_silent "token" "shop" Sample.offline)
    as (Hworld & Hfail & _).
  specialize (Hfail _ eq_refl).
  destruct (searchExchange "token" "shop" Sample.offline) as [r w'].
  simpl in Hworld, Hfail. by rewrite Hworld, Hfail.
Defined.

(** X6: with a version given, [getSpecificApi] settles to [null] and one
    warning is logged when the registry answers the lookup with a status
    that is no success; it throws when the registry answers with an object
    that is not a well-formed asset (one without [categories], say). *)
Theorem getSpecificApi_lookup_failures
    (accessToken groupId assetId : string) (version : value) (w : World)
    (res : Response) :
  let path := groupId ++ "/" ++ assetId ++ "/" ++ to_string version in
  truthy version = true ->
  answer w (asset_request accessToken path) = Ok res ->
  (res_ok res = false ->
   await (getSpecificApi accessToken groupId assetId version) w
   = (Ok None,
      warned (lookup_failed_message path res) (manual_lookup_hint path)
             (sent (asset_request accessToken path) w))) /\
  (forall api,
     res_ok res = true -> res_json res = Ok api -> truthy api = true ->
     ~ asset_shaped api ->
     exists e,
       await (getSpecificApi accessToken groupId assetId version) w
       = (Throw e, sent (asset_request accessToken path) w)).
Proof.
  intros path Hv Hnet. subst path.
  apply getAsset_answered in Hnet.
  unfold getSpecificApi. rewrite Hv. simpl. split.
  - unfold bind at 1. rewrite Hnet. by intros ->.
  - intros api Hok Hjson Hapi Hshape.
    unfold bind at 1. rewrite Hnet, Hok, Hjson, Hapi. unfold bind, lift.
    destruct (convertResponseToRestApi api) as [r|e] eqn:Hconv; [|by eexists].
    destruct Hshape. by eapply convertResponseToRestApi_ok_inv.
Qed.

Lemma getSpecificApi_unknown_and_stub :
  await (getSpecificApi "token" "org" "shop" (VNum "9")) Sample.registry_stub
  = (Ok None,
     warned
       "Failed to get information about org/shop/9 from exchange: 404 - Not Found"
       (manual_lookup_hint "org/shop/9")
       (sent (asset_request "token" "org/shop/9") Sample.registry_stub)) /\
  exists e,
    await (getSpecificApi "token" "org" "shop" (VStr "1.0.0"))
          Sample.registry_stub
    = (Throw e,
       sent (asset_request "token" "org/shop/1.0.0") Sample.registry_stub).
Proof.
  split.
  - apply (getSpecificApi_lookup_failures "token" "org" "shop" (VNum "9")
             Sample.registry_stub
             (Sample.answering 404 "Not Found" VNull []) eq_refl eq_refl).
    reflexivity.
  - apply (proj2 (getSpecificApi_lookup_failures "token" "org" "shop"
                    (VStr "1.0.0") Sample.registry_stub
                    (Sample.answering 200 "OK" Sample.stub [])
                    eq_refl eq_refl) Sample.stub); try reflexivity.
    intros (_ & cats & fs & Hcats & _). discriminate Hcats.
Defined.

(** X7: an asset is described the same way however it is found: the
    descriptor that [getSpecificApi] settles to for an asset is the one that
    [searchExchange] lists for the same object. *)
Theorem lookup_and_search_agree
    (accessToken searchString groupId assetId : string) (version : value)
    (w1 w2 : World) (res1 res2 : Response) (assets : list value)
    (i : nat) (asset : value) :
  answer w1 (search_request accessToken searchString) = Ok res1 ->
  res_json res1 = Ok (VArr assets) ->
  Forall asset_shaped assets ->
  assets !! i = Some asset ->
  truthy version = true ->
  answer w2 (asset_request accessToken
               (groupId ++ "/" ++ assetId ++ "/" ++ to_string version))
  = Ok res2 ->
  res_ok res2 = true ->
  res_json res2 = Ok asset ->
  exists apis api,
    (searchExchange accessToken searchString w1).1 = Ok apis /\
    apis !! i = Some api /\
    (await (getSpecificApi accessToken groupId assetId version) w2).1
    = Ok (Some api).
Proof.
  intros Hnet1 Hjson1 Hshape Hi Hv Hnet2 Hok2 Hjson2.
  destruct (convert_all assets [] Hshape) as (apis & Hconv & _).
  destruct (convert_all_inv _ _ _ Hconv) as (converted & Happ & Hall).
  simpl in Happ. simplify_eq.
  destruct (Forall2_lookup_l _ _ _ _ _ Hall Hi) as (api & Hapi & Hconvert).
  exists converted, api. split; [|split; [done|]].
  - unfold answer, search_request in Hnet1.
    unfold searchExchange, bind, fetch, lift. rewrite Hnet1, Hjson1. simpl.
    by rewrite Hconv.
  - apply getAsset_answered in Hnet2.
    unfold getSpecificApi. rewrite Hv. simpl.
    unfold bind at 1. rewrite Hnet2, Hok2, Hjson2.
    assert (truthy asset = true) as ->.
    { apply asset_shaped_truthy. eapply Forall_lookup_1; eauto. }
    unfold bind, lift, ret. by rewrite Hconvert.
Qed.

Lemma lookup_and_search_agree_on_shop :
  exists apis api,
    (searchExchange "token" "shop" Sample.registry_and_search).1 = Ok apis /\
    apis !! 1%nat = Some api /\
    (await (getSpecificApi "token" "org" "shop" (VStr "1.0.0"))
           Sample.registry_and_search).1
    = Ok (Some api).
Proof.
  apply (lookup_and_search_agree "token" "shop" "org" "shop" (VStr "1.0.0")
           Sample.registry_and_search Sample.registry_and_search
           (Sample.answering 200 "OK" (VArr [Sample.cart; Sample.shop]) [])
           (Sample.answering 200 "OK" Sample.shop [])
           [Sample.cart; Sample.shop] 1 Sample.shop);
    try reflexivity.
  repeat constructor; eexists _, _; repeat split; by repeat constructor.
Defined.

Lemma scanInstance_ok (scan scan' : value * RegExp) (instance : value) :
  scanInstance scan instance = Ok scan' ->
  nullish instance = false /\
  (truthy (field instance "environmentName") = true ->
   stringifies (field instance "environmentName") = true).
Proof.
  unfold scanInstance. destruct scan as [version deployment]. intros Hrun.
  destruct (get instance "environmentName") as [env|e] eqn:Hget; [|done].
  pose proof (get_ok _ _ _ Hget) as Hi. split; [done|].
  rewrite (get_field _ _ Hi) in Hget. simplify_eq. simpl in Hrun.
  intros Henv. rewrite Henv in Hrun. unfold stringifies.
  by destruct (ToString (field instance "environmentName")).
Qed.

(** A scan over instances that can all be read comes to an end. *)
Lemma scan_scannable (instances : list value) (scan : value * RegExp) :
  scannable instances ->
  exists scan', forEach scanInstance instances scan = Ok scan'.
Proof.
  intros Hr. revert scan.
  induction Hr as [|instance instances [Hi Henv] _ IH]; intros scan.
  - by eexists.
  - cbn [forEach]. unfold scanInstance at 1. destruct scan as [version re].
    rewrite (get_field _ _ Hi). cbn [obind].
    destruct (truthy (field instance "environmentName")); [|apply IH].
    specialize (Henv eq_refl). unfold stringifies in Henv.
    destruct (ToString _) as [s|e]; [cbn [obind]|done].
    destruct (test re s) as [found re'].
    destruct (found && negb (truthy version)); [|apply IH].
    rewrite (get_field _ _ Hi). cbn [obind]. apply IH.
Qed.

(** X8: with the metadata found, [getVersionByDeployment] returns a
    version, instead of throwing, exactly when the metadata has an
    [instances] array with no [null] or [undefined] entry in which every
    environment name is empty or can be made a string, whatever the flags of
    the pattern.  Without such an array it throws: the asset's own version
    is no fallback for it. *)
Theorem getVersionByDeployment_needs_instances
    (accessToken : string) (restApi : RestApi.t)
    (deployment : RegExp) (w w1 : World) (asset : value) :
  getAsset accessToken
    (to_string (RestApi.groupId restApi) ++ "/"
     ++ to_string (RestApi.assetId restApi)) w = (Ok asset, w1) ->
  truthy asset = true ->
  ((exists v,
      getVersionByDeployment accessToken restApi deployment w = (Ok v, w1))
   <-> (exists instances,
          field asset "instances" = VArr instances /\ scannable instances)).
Proof.
  intros Hasset Htruthy.
  pose proof (truthy_not_nullish _ Htruthy) as Hnull.
  unfold getVersionByDeployment, bind. rewrite Hasset, Htruthy. simpl.
  unfold lift, pickVersion. rewrite !(get_field _ _ Hnull). cbn [obind].
  split.
  - intros [v Hrun].
    destruct (array_items (field asset "instances")) as [instances|e]
      eqn:Hitems; [cbn [obind] in Hrun|done].
    apply array_items_ok in Hitems. exists instances. split; [done|].
    destruct (forEach _ instances _) as [scan|e] eqn:Hscan; [|done].
    eapply (forEach_invariant (fun _ => True)); [|done|exact Hscan].
    intros acc x acc' _ Hstep. split; [done|]. by eapply scanInstance_ok.
  - intros (instances & -> & Hr). cbn [array_items obind].
    destruct (scan_scannable instances (VNull, deployment) Hr)
      as [scan ->]. cbn [obind].
    destruct (truthy scan.1); by eexists.
Qed.

Lemma getVersionByDeployment_stub_throws :
  ~ (exists v,
       getVersionByDeployment "token" Sample.shop_api Sample.production_g
         Sample.registry_stub
       = (Ok v, sent (asset_request "token" "org/shop") Sample.registry_stub))
  /\ ~ (exists v,
          getVersionByDeployment "token" Sample.shop_api Sample.production
            (Sample.registry_of Sample.shop_odd_instance)
          = (Ok v, sent (asset_request "token" "org/shop")
                        (Sample.registry_of Sample.shop_odd_instance)))
  /\ exists v,
       getVersionByDeployment "token" Sample.shop_api Sample.production_g
         (Sample.registry_of Sample.shop)
       = (Ok v, sent (asset_request "token" "org/shop")
                     (Sample.registry_of Sample.shop)).
Proof.
  split; [|split].
  - intros Hok.
    apply (getVersionByDeployment_needs_instances "token" Sample.shop_api
             Sample.production_g Sample.registry_stub _ Sample.stub
             eq_refl eq_refl) in Hok as (instances & Hinst & _).
    discriminate Hinst.
  - intros Hok.
    apply (getVersionByDeployment_needs_instances "token" Sample.shop_api
             Sample.production (Sample.registry_of Sample.shop_odd_instance)
             _ Sample.shop_odd_instance eq_refl eq_refl) in Hok
      as (instances & Hinst & Hscan).
    injection Hinst as <-.
    apply Forall_cons in Hscan as [[_ Henv] _].
    discriminate (Henv eq_refl).
  - apply (getVersionByDeployment_needs_instances "token" Sample.shop_api
             Sample.production_g (Sample.registry_of Sample.shop)
             _ Sample.shop eq_refl eq_refl).
    eexists. split; [reflexivity|].
    repeat constructor; by intros _.
Defined.

(** ** Further properties of a single download *)

Section SingleDownloadMore.
Context {platform : Platform}.

(** The call of a descriptor with an id, step by step. *)
Lemma downloadRestApi_steps (restApi : RestApi.t)
    (destinationFolder : option string) (w : World) :
  truthy (RestApi.id restApi) = true ->
  downloadRestApi restApi destinationFolder w
  = match ensureDirSync (default DEFAULT_DOWNLOAD_FOLDER destinationFolder) w
    with
    | (Throw e, w1) => (Throw e, w1)
    | (Ok _, w1) =>
        match RestApi.fatRaml restApi with
        | None =>
            (Throw (TypeError
               "Cannot read properties of undefined (reading 'externalLink')"),
             w1)
        | Some fatRaml =>
            let w2 := sent (download_request fatRaml) w1 in
            match answer w1 (download_request fatRaml) with
            | Throw e => (Throw e, w2)
            | Ok response =>
                match res_arrayBuffer response with
                | Throw e => (Throw e, w2)
                | Ok body =>
                    match writeFileSync (zip_path destinationFolder restApi)
                                        body w2 with
                    | (Throw e, w3) => (Throw e, w3)
                    | (Ok _, w3) => (Ok (Some response), w3)
                    end
                end
            end
        end
    end.
Proof.
  intros Hid. unfold downloadRestApi. rewrite Hid. simpl. unfold bind at 1.
  destruct (ensureDirSync _ w) as [[[]|e] w1]; [|done].
  unfold bind at 1, lift, fatRaml_externalLink.
  destruct (RestApi.fatRaml restApi) as [fatRaml|]; [|done].
  unfold bind at 1, fetch, answer, download_request, sent. simpl.
  destruct (net w1 _ _) as [response|e]; [|done].
  unfold bind at 1.
  destruct (res_arrayBuffer response) as [body|e]; [|done].
  unfold bind, ret, zip_path.
  by destruct (writeFileSync _ body _) as [[[]|e] w3].
Qed.

Lemma ensureDirSync_effects (dir : string) (w : World) :
  let w1 := (ensureDirSync dir w).2 in
  files w1 = files w /\ requests w1 = requests w /\
  warnings w1 = warnings w /\ net w1 = net w /\ dirs w ⊆ dirs w1 /\
  ((ensureDirSync dir w).1 = Ok tt -> dir ∈ dirs w1).
Proof.
  unfold ensureDirSync. destruct (is_file w dir); [done|].
  destruct (existsb _ _); [done|]. simpl. repeat split; set_solver.
Qed.

Lemma writeFileSync_effects (file : string) (data : bytes) (w : World) :
  let w1 := (writeFileSync file data w).2 in
  dirs w1 = dirs w /\ requests w1 = requests w /\
  warnings w1 = warnings w /\
  (forall p, p ≠ file -> files w1 !! p = files w !! p) /\
  (forall e, (writeFileSync file data w).1 = Throw e -> files w1 = files w).
Proof.
  unfold writeFileSync. destruct (is_dir w file); [done|].
  destruct (forallb _ _); [|done]. simpl. repeat split; try done.
  intros p Hp. by rewrite lookup_insert_ne.
Qed.

(** X9: whatever its outcome, a call of [downloadRestApi] changes no file
    but the archive of its own descriptor, and removes no directory; a call
    that throws has written no file at all and logged no warning. *)
Theorem downloadRestApi_touches_own_path_only
    (restApi : RestApi.t) (destinationFolder : option string) (w : World) :
  let result := (downloadRestApi restApi destinationFolder w).1 in
  let w' := (downloadRestApi restApi destinationFolder w).2 in
  (forall p, p ≠ zip_path destinationFolder restApi ->
             files w' !! p = files w !! p) /\
  dirs w ⊆ dirs w' /\
  (forall e, result = Throw e ->
             files w' = files w /\ warnings w' = warnings w).
Proof.
  destruct (truthy (RestApi.id restApi)) eqn:Hid.
  - rewrite downloadRestApi_steps by done.
    destruct (ensureDirSync_effects
                (default DEFAULT_DOWNLOAD_FOLDER destinationFolder) w)
      as (Hf & _ & Hw & _ & Hd & _).
    destruct (ensureDirSync _ w) as [[[]|e] w1]; simpl in *;
      [|by rewrite Hf, Hw].
    destruct (RestApi.fatRaml restApi) as [fatRaml|]; simpl;
      [|by rewrite Hf, Hw].
    destruct (answer w1 _) as [response|e]; simpl; [|by rewrite Hf, Hw].
    destruct (res_arrayBuffer response) as [body|e]; simpl;
      [|by rewrite Hf, Hw].
    destruct (writeFileSync_effects (zip_path destinationFolder restApi) body
                (sent (download_request fatRaml) w1))
      as (Hd3 & _ & Hw3 & Hother & Hfail).
    destruct (writeFileSync _ body _) as [[[]|e] w3]; simpl in *.
    + split; [|split; [by rewrite Hd3|done]].
      intros p Hp. by rewrite Hother, Hf.
    + split; [|split; [by rewrite Hd3|]].
      * intros p Hp. by rewrite Hother, Hf.
      * intros e' _. by rewrite (Hfail e), Hw3, Hf, Hw.
  - unfold downloadRestApi. rewrite Hid. by simpl.
Qed.

(** X10: a download whose request fails, or whose body cannot be read,
    throws that very error.  By then the destination folder has been made
    and the request has been sent; no file has been written. *)
Theorem downloadRestApi_failed_transfer
    (restApi : RestApi.t) (destinationFolder : option string) (w : World)
    (fatRaml : FileInfo.t) (e : error) :
  let folder := default DEFAULT_DOWNLOAD_FOLDER destinationFolder in
  truthy (RestApi.id restApi) = true ->
  RestApi.fatRaml restApi = Some fatRaml ->
  (ensureDirSync folder w).1 = Ok tt ->
  (answer w (download_request fatRaml) = Throw e \/
   exists response,
     answer w (download_request fatRaml) = Ok response /\
     res_arrayBuffer response = Throw e) ->
  exists w',
    downloadRestApi restApi destinationFolder w = (Throw e, w') /\
    folder ∈ dirs w' /\
    requests w' = (requests w ++ [download_request fatRaml])%list /\
    files w' = files w.
Proof.
  intros folder Hid Hfat Hdir Hfail. subst folder.
  rewrite downloadRestApi_steps, Hfat by done.
  destruct (ensureDirSync_effects
              (default DEFAULT_DOWNLOAD_FOLDER destinationFolder) w)
    as (Hf & Hr & _ & Hn & _ & Hin).
  destruct (ensureDirSync _ w) as [[[]|e0] w1]; simpl in *; [|done].
  assert (answer w1 (download_request fatRaml)
          = answer w (download_request fatRaml)) as ->
    by (unfold answer; by rewrite Hn, Hr).
  eexists. destruct Hfail as [->|(response & -> & ->)];
    (split; [done|]); simpl; rewrite Hr; auto.
Qed.

Lemma insert_twice (m : gmap string bytes) (p : string) (b : bytes) :
  <[p := b]> (<[p := b]> m) = <[p := b]> m.
Proof. apply insert_insert_eq. Qed.

(** X11: downloading the same descriptor again is harmless: when both calls
    end well and the server has sent the same bytes, the second call leaves
    the files and the directories as the first one left them. *)
Theorem downloadRestApi_again
    (restApi : RestApi.t) (destinationFolder : option string)
    (w w1 w2 : World) (first second : Response) :
  downloadRestApi restApi destinationFolder w = (Ok (Some first), w1) ->
  downloadRestApi restApi destinationFolder w1 = (Ok (Some second), w2) ->
  res_arrayBuffer second = res_arrayBuffer first ->
  files w2 = files w1 /\ dirs w2 = dirs w1.
Proof.
  intros Hrun1 Hrun2 Hsame.
  assert (truthy (RestApi.id restApi) = true) as Hid.
  { destruct (truthy (RestApi.id restApi)) eqn:Hid; [done|].
    unfold downloadRestApi in Hrun1. rewrite Hid in Hrun1. by simpl in Hrun1. }
  assert (forall w w' response,
    downloadRestApi restApi destinationFolder w = (Ok (Some response), w') ->
    exists body,
      res_arrayBuffer response = Ok body /\
      files w' = <[zip_path destinationFolder restApi := body]> (files w) /\
      dirs w' = dirs w ∪ list_to_set
        (default DEFAULT_DOWNLOAD_FOLDER destinationFolder
         :: path_parents (default DEFAULT_DOWNLOAD_FOLDER destinationFolder)))
    as Hinv.
  { intros v v' response Hrun. rewrite downloadRestApi_steps in Hrun by done.
    destruct (ensureDirSync _ v) as [[[]|e] v1] eqn:Hdir; [|done].
    apply ensureDirSync_ok in Hdir as ->.
    destruct (RestApi.fatRaml restApi) as [fatRaml|]; [|done].
    cbv zeta in Hrun. destruct (answer _ _) as [response'|e]; [|done].
    destruct (res_arrayBuffer response') as [body|e] eqn:Hbody; [|done].
    destruct (writeFileSync _ body _) as [[[]|e] v3] eqn:Hwrite; [|done].
    apply writeFileSync_ok in Hwrite as ->. simplify_eq. by exists body. }
  destruct (Hinv _ _ _ Hrun1) as (b1 & Hb1 & Hf1 & Hd1).
  destruct (Hinv _ _ _ Hrun2) as (b2 & Hb2 & Hf2 & Hd2).
  rewrite Hsame, Hb1 in Hb2. simplify_eq. split.
  - by rewrite Hf2, Hf1, insert_twice.
  - by rewrite Hd2, Hd1, <- (assoc_L (∪)), (idemp_L (∪)).
Qed.

End SingleDownloadMore.

Lemma downloadRestApi_bare_writes_nothing :
  files (downloadRestApi (platform := Sample.plain_paths) Sample.bare_api None
                         Sample.cdn).2 = files Sample.cdn /\
  warnings (downloadRestApi (platform := Sample.plain_paths) Sample.bare_api
                            None Sample.cdn).2 = warnings Sample.cdn.
Proof.
  apply (proj2 (proj2 (downloadRestApi_touches_own_path_only
                         (platform := Sample.plain_paths)
                         Sample.bare_api None Sample.cdn))
           (TypeError
              "Cannot read properties of undefined (reading 'externalLink')")).
  reflexivity.
Defined.

Lemma downloadRestApi_offline :
  exists w',
    downloadRestApi (platform := Sample.plain_paths) Sample.shop_api None
                    Sample.offline
    = (Throw (FetchError "request to https://cdn/new.zip failed"), w') /\
    "download" ∈ dirs w' /\
    requests w'
    = (requests Sample.offline
       ++ [download_request (fileInfo_of Sample.fat_new)])%list /\
    files w' = files Sample.offline.
Proof.
  apply (downloadRestApi_failed_transfer (platform := Sample.plain_paths)
           Sample.shop_api None Sample.offline (fileInfo_of Sample.fat_new));
    try reflexivity.
  by left.
Defined.

Lemma downloadRestApi_shop_twice :
  let w1 := (downloadRestApi (platform := Sample.plain_paths) Sample.shop_api
               (Some "out") Sample.cdn).2 in
  let w2 := (downloadRestApi (platform := Sample.plain_paths) Sample.shop_api
               (Some "out") w1).2 in
  files w2 = files w1 /\ dirs w2 = dirs w1.
Proof.
  apply (downloadRestApi_again (platform := Sample.plain_paths)
           Sample.shop_api (Some "out") Sample.cdn _ _
           (Sample.answering 200 "OK" VNull Sample.zip_of_shop)
           (Sample.answering 200 "OK" VNull Sample.zip_of_shop)).
  - vm_compute. reflexivity.
  - vm_compute. reflexivity.
  - reflexivity.
Defined.

(** ** Further properties of the aggregate download *)

Section AggregateMore.
Context {platform : Platform}.

Lemma run_eta (r : Run) :
  r = {| promises := promises r; rejection := rejection r; world := world r |}.
Proof. by destruct r. Qed.

(** Waking a fulfilled promise changes nothing. *)
Lemma wake_fulfilled (r : Run) (i : nat) :
  Forall (fun d => fulfilled d = true) (promises r) -> wake r i = r.
Proof.
  intros Hall. unfold wake.
  destruct (promises r !! i) as [d|] eqn:Hd; [|done].
  eapply Forall_lookup_1 in Hall; [|exact Hd].
  destruct d as [[result|e]|? ?|? ?]; try done. simpl.
  rewrite list_insert_id by done. rewrite (run_eta r) at 4.
  by destruct (rejection r).
Qed.

Lemma run_fulfilled (schedule : list nat) (r : Run) :
  Forall (fun d => fulfilled d = true) (promises r) ->
  fold_left wake schedule r = r.
Proof.
  intros Hall. induction schedule as [|i schedule IH]; [done|].
  simpl. by rewrite wake_fulfilled.
Qed.

(** Waking settled promises changes neither them nor the world. *)
Lemma run_settled (schedule : list nat) (r : Run) :
  Forall (fun d => settled d = true) (promises r) ->
  promises (fold_left wake schedule r) = promises r /\
  world (fold_left wake schedule r) = world r.
Proof.
  revert r. induction schedule as [|i schedule IH]; intros r Hall; [done|].
  simpl.
  assert (promises (wake r i) = promises r /\ world (wake r i) = world r)
    as [Hp Hw].
  { unfold wake. destruct (promises r !! i) as [d|] eqn:Hd; [|done].
    eapply Forall_lookup_1 in Hall; [|exact Hd].
    destruct d as [result|? ?|? ?]; try done. simpl.
    by rewrite list_insert_id. }
  destruct (IH (wake r i)) as [-> ->]; [by rewrite Hp|done].
Qed.

Lemma downloadRestApi_call_skip (api : RestApi.t) (folder : string)
    (w : World) :
  has_id api = false ->
  downloadRestApi_call api folder w
  = (Settled (Ok None), set_warnings (warnings w ++ [skip_warning api]) w).
Proof. unfold has_id, downloadRestApi_call. by intros ->. Qed.

Lemma downloadRestApi_call_warnings (api : RestApi.t) (folder : string)
    (w : World) :
  has_id api = true ->
  warnings (downloadRestApi_call api folder w).2 = warnings w.
Proof.
  unfold has_id, downloadRestApi_call. intros ->. simpl.
  destruct (ensureDirSync_effects folder w) as (_ & _ & Hw & _).
  destruct (ensureDirSync folder w) as [[[]|e] w1]; simpl in *; [|done].
  by destruct (fatRaml_externalLink api).
Qed.

Lemma launch_warnings (restApi : list RestApi.t) (folder : string)
    (w : World) :
  warnings (launch restApi folder w).2
  = (warnings w
     ++ (skip_warning <$> List.filter (fun api => negb (has_id api)) restApi)
    )%list.
Proof.
  revert w. induction restApi as [|api rest IH]; intros w; simpl.
  - by rewrite app_nil_r.
  - pose proof (downloadRestApi_call_skip api folder w) as Hskip.
    pose proof (downloadRestApi_call_warnings api folder w) as Hkeep.
    destruct (downloadRestApi_call api folder w) as [d w1].
    specialize (IH w1). destruct (launch rest folder w1) as [ds w2].
    simpl in *. rewrite IH. destruct (has_id api); simpl.
    + by rewrite Hkeep.
    + specialize (Hskip eq_refl). simplify_eq. simpl.
      by rewrite <- app_assoc.
Qed.

(** X12: whatever the batch and whatever the order in which the downloads
    are woken, [downloadRestApis] logs one warning for each descriptor
    without an id, in the order of the descriptors, all of them before any
    download is resumed, and no other warning. *)
Theorem downloadRestApis_warnings
    (restApi : list RestApi.t) (destinationFolder : option string)
    (schedule : list nat) (w : World) :
  warnings (downloadRestApis restApi destinationFolder schedule w).2
  = (warnings w
     ++ (skip_warning <$> List.filter (fun api => negb (has_id api)) restApi)
    )%list /\
  warnings (downloadRestApis restApi destinationFolder schedule w).2
  = warnings (downloadRestApis restApi destinationFolder [] w).2.
Proof.
  unfold downloadRestApis, downloadRestApis_run. simpl.
  pose proof (launch_warnings restApi
                (default DEFAULT_DOWNLOAD_FOLDER destinationFolder) w) as Hw.
  destruct (launch restApi _ w) as [ps w1]. simpl in Hw.
  set (r0 := {| promises := ps; rejection := first_rejection ps;
                world := w1 |}).
  destruct (run_effects schedule r0) as (_ & -> & _). by simpl.
Qed.

Lemma launch_skips (restApi : list RestApi.t) (folder : string) (w : World) :
  Forall (fun api => has_id api = false) restApi ->
  Forall (fun d => fulfilled d = true) (launch restApi folder w).1 /\
  first_rejection (launch restApi folder w).1 = None /\
  requests (launch restApi folder w).2 = requests w /\
  files (launch restApi folder w).2 = files w /\
  dirs (launch restApi folder w).2 = dirs w.
Proof.
  intros Hall. revert w.
  induction Hall as [|api rest Hapi _ IH]; intros w; simpl; [done|].
  rewrite downloadRestApi_call_skip by done.
  specialize (IH (set_warnings (warnings w ++ [skip_warning api]) w)).
  destruct (launch rest folder _) as [ds w2]. simpl in *.
  destruct IH as (Hf & Hr & -> & -> & ->). by repeat split; try constructor.
Qed.

(** X13: a batch in which no descriptor has an id (the empty batch among
    them) is fulfilled with the destination folder as soon as it is called,
    whatever is woken afterwards; it sends no request, makes no directory
    and writes no file. *)
Theorem downloadRestApis_skips_only
    (restApi : list RestApi.t) (destinationFolder : option string)
    (schedule : list nat) (w : World) :
  Forall (fun api => has_id api = false) restApi ->
  exists w',
    downloadRestApis restApi destinationFolder schedule w
    = (Fulfilled (default DEFAULT_DOWNLOAD_FOLDER destinationFolder), w') /\
    requests w' = requests w /\ files w' = files w /\ dirs w' = dirs w.
Proof.
  intros Hall. unfold downloadRestApis, downloadRestApis_run.
  destruct (launch_skips restApi
              (default DEFAULT_DOWNLOAD_FOLDER destinationFolder) w Hall)
    as (Hf & Hrej & Hr & Hfiles & Hd).
  destruct (launch restApi _ w) as [ps w1]. simpl in *.
  rewrite run_fulfilled by done. eexists. split; [|done].
  unfold all_then. simpl. rewrite Hrej.
  replace (forallb fulfilled ps) with true; [done|].
  symmetry. apply forallb_forall. intros d Hd'.
  eapply Forall_forall in Hf; [exact Hf|]. by apply list_elem_of_In.
Qed.

Lemma downloadRestApi_call_requests (api : RestApi.t) (folder : string)
    (w : World) :
  (ensureDirSync folder w).1 = Ok tt ->
  requests (downloadRestApi_call api folder w).2
  = (requests w ++ option_list (request_of api))%list.
Proof.
  intros Hdir. unfold request_of, has_id, downloadRestApi_call.
  destruct (truthy (RestApi.id api)); simpl; [|by rewrite app_nil_r].
  destruct (ensureDirSync_effects folder w) as (_ & Hr & _).
  destruct (ensureDirSync folder w) as [[[]|e] w1]; simpl in *; [|done].
  unfold fatRaml_externalLink.
  destruct (RestApi.fatRaml api) as [fatRaml|]; simpl.
  - by rewrite Hr.
  - by rewrite Hr, app_nil_r.
Qed.

Lemma launch_requests (restApi : list RestApi.t) (folder : string)
    (w : World) :
  (ensureDirSync folder w).1 = Ok tt ->
  requests (launch restApi folder w).2
  = (requests w ++ omap request_of restApi)%list.
Proof.
  revert w. induction restApi as [|api rest IH]; intros w Hdir; simpl.
  - by rewrite app_nil_r.
  - pose proof (downloadRestApi_call_requests api folder w Hdir) as Hreq.
    destruct (downloadRestApi_call_effects api folder w) as (Hfiles & _).
    destruct (downloadRestApi_call api folder w) as [d w1]. simpl in *.
    specialize (IH w1). rewrite (ensureDirSync_files folder w1 w) in IH by done.
    specialize (IH Hdir). destruct (launch rest folder w1) as [ds w2].
    simpl in *. rewrite IH, Hreq, <- app_assoc. f_equal.
    by destruct (request_of api).
Qed.

(** X14: when nothing stands in the way of the destination folder,
    [downloadRestApis] sends exactly one request for each descriptor that has
    an id and a [fatRaml], to its external link, in the order of the
    descriptors, and none for the others; the order in which the downloads
    are woken changes nothing to it. *)
Theorem downloadRestApis_requests
    (restApi : list RestApi.t) (destinationFolder : option string)
    (schedule : list nat) (w : World) :
  (ensureDirSync (default DEFAULT_DOWNLOAD_FOLDER destinationFolder) w).1
  = Ok tt ->
  requests (downloadRestApis restApi destinationFolder schedule w).2
  = (requests w ++ omap request_of restApi)%list.
Proof.
  intros Hdir. unfold downloadRestApis, downloadRestApis_run. simpl.
  pose proof (launch_requests restApi _ w Hdir) as Hreq.
  destruct (launch restApi _ w) as [ps w1]. simpl in Hreq.
  set (r0 := {| promises := ps; rejection := first_rejection ps;
                world := w1 |}).
  destruct (run_effects schedule r0) as (-> & _). by simpl.
Qed.

Lemma ensureDirSync_throw (dir : string) (w : World) (e : error) :
  (ensureDirSync dir w).1 = Throw e -> ensureDirSync dir w = (Throw e, w).
Proof.
  unfold ensureDirSync. destruct (is_file w dir); simpl; [by intros [= ->]|].
  destruct (existsb _ _); simpl; [by intros [= ->]|done].
Qed.

Lemma launch_blocked (restApi : list RestApi.t) (folder : string)
    (w : World) (e : error) :
  (ensureDirSync folder w).1 = Throw e ->
  Forall (fun d => settled d = true) (launch restApi folder w).1 /\
  requests (launch restApi folder w).2 = requests w /\
  files (launch restApi folder w).2 = files w /\
  dirs (launch restApi folder w).2 = dirs w /\
  (Exists (fun api => has_id api = true) restApi ->
   first_rejection (launch restApi folder w).1 = Some e).
Proof.
  revert w. induction restApi as [|api rest IH]; intros w Hdir; simpl.
  - repeat split; try done. by intros ?%Exists_nil.
  - destruct (has_id api) eqn:Hid.
    + unfold downloadRestApi_call. unfold has_id in Hid. rewrite Hid. simpl.
      rewrite (ensureDirSync_throw _ _ _ Hdir).
      specialize (IH w Hdir). destruct (launch rest folder w) as [ds w2].
      simpl in *. destruct IH as (Hs & -> & -> & -> & _).
      repeat split; try done. by constructor.
    + rewrite downloadRestApi_call_skip by done.
      specialize (IH (set_warnings (warnings w ++ [skip_warning api]) w)).
      rewrite (ensureDirSync_files folder _ w) in IH by done.
      specialize (IH Hdir). destruct (launch rest folder _) as [ds w2].
      simpl in *. destruct IH as (Hs & -> & -> & -> & Hrej).
      repeat split; try done; [by constructor|].
      intros [Hhere|Hlater]%Exists_cons; [congruence|by apply Hrej].
Qed.

(** X15: when the destination folder cannot be made (a file is in the
    way), [downloadRestApis] sends no request and changes no file and no
    directory, whatever is woken afterwards; and if some descriptor has an
    id, the returned promise is rejected with the error of the folder. *)
Theorem downloadRestApis_blocked_folder
    (restApi : list RestApi.t) (destinationFolder : option string)
    (schedule : list nat) (w : World) (e : error) :
  (ensureDirSync (default DEFAULT_DOWNLOAD_FOLDER destinationFolder) w).1
  = Throw e ->
  let run := downloadRestApis restApi destinationFolder schedule w in
  requests run.2 = requests w /\ files run.2 = files w /\
  dirs run.2 = dirs w /\
  (Exists (fun api => has_id api = true) restApi -> run.1 = Rejected e).
Proof.
  intros Hdir. unfold downloadRestApis, downloadRestApis_run. simpl.
  destruct (launch_blocked restApi _ w e Hdir)
    as (Hs & Hr & Hf & Hd & Hrej).
  destruct (launch restApi _ w) as [ps w1]. simpl in *.
  set (r0 := {| promises := ps; rejection := first_rejection ps;
                world := w1 |}).
  destruct (run_settled schedule r0 Hs) as [_ ->]. simpl.
  repeat split; try done.
  intros Hid. unfold all_then.
  by rewrite (run_rejection_stays schedule r0 e (Hrej Hid)).
Qed.

Lemma launch_fault (restApi : list RestApi.t) (folder : string) (w : World)
    (api : RestApi.t) :
  api ∈ restApi -> has_id api = true -> RestApi.fatRaml api = None ->
  exists e, Settled (Throw e) ∈ (launch restApi folder w).1.
Proof.
  intros Hin Hid Hfat. revert w.
  induction restApi as [|a rest IH]; intros w; [by apply elem_of_nil in Hin|].
  simpl. apply elem_of_cons in Hin as [<-|Hin].
  - assert (exists e, (downloadRestApi_call api folder w).1 = Settled (Throw e))
      as [e He].
    { unfold downloadRestApi_call. unfold has_id in Hid. rewrite Hid. simpl.
      destruct (ensureDirSync folder w) as [[[]|e] w1]; simpl; [|by eexists].
      unfold fatRaml_externalLink. rewrite Hfat. by eexists. }
    destruct (downloadRestApi_call api folder w) as [d w1].
    destruct (launch rest folder w1) as [ds w2]. simpl in *. subst d.
    exists e. by left.
  - destruct (downloadRestApi_call a folder w) as [d w1].
    destruct (IH Hin w1) as [e He].
    destruct (launch rest folder w1) as [ds w2]. simpl in *.
    exists e. by right.
Qed.

(** X16: one descriptor that has an id but no [fatRaml] is enough for the
    whole batch to be rejected: the returned promise is rejected from the
    call on, before any download is resumed and whatever the order in which
    they are. *)
Theorem downloadRestApis_rejected_from_the_start
    (restApi : list RestApi.t) (destinationFolder : option string)
    (schedule : list nat) (w : World) (api : RestApi.t) :
  api ∈ restApi -> has_id api = true -> RestApi.fatRaml api = None ->
  exists e,
    (downloadRestApis restApi destinationFolder [] w).1 = Rejected e /\
    (downloadRestApis restApi destinationFolder schedule w).1 = Rejected e.
Proof.
  intros Hin Hid Hfat. unfold downloadRestApis, downloadRestApis_run. simpl.
  destruct (launch_fault restApi
              (default DEFAULT_DOWNLOAD_FOLDER destinationFolder) w api
              Hin Hid Hfat) as [e0 He0].
  destruct (launch restApi _ w) as [ps w1]. simpl in He0.
  pose proof (first_rejection_tracked ps) as Htracked.
  destruct (first_rejection ps) as [e|] eqn:Hfirst; [|by destruct (Htracked e0)].
  exists e. unfold all_then. simpl. split; [done|].
  set (r0 := {| promises := ps; rejection := Some e; world := w1 |}).
  by rewrite (run_rejection_stays schedule r0 e).
Qed.

Lemma wake_alone (r : Run) (d : Download) (w : World) :
  alone r d w ->
  alone (wake r 0) (resume d w).1 (resume d w).2 /\
  forall i, wake r (S i) = r.
Proof.
  intros (Hp & Hw & Hrej). unfold wake, alone. rewrite Hp, Hw. simpl.
  split; [|done]. destruct (resume d w) as [d1 w1] eqn:Hresume. simpl.
  repeat split. rewrite Hrej.
  destruct d as [[result|e]|? ?|? ?]; simpl in Hresume; by simplify_eq.
Qed.

Lemma run_alone (schedule : list nat) (r : Run) (d : Download) (w : World) :
  alone r d w ->
  (steps_left d <= count_occ Nat.eq_dec schedule 0)%nat ->
  alone (fold_left wake schedule r) (resume_twice d w).1 (resume_twice d w).2.
Proof.
  revert r d w.
  induction schedule as [|j schedule IH]; intros r d w Halone Hsteps.
  - simpl in *. unfold resume_twice.
    by rewrite !(resume_settled d w) by (apply steps_left_settled; lia).
  - destruct (wake_alone r d w Halone) as [Hzero Hother].
    destruct j as [|j]; simpl in *.
    + pose proof (resume_steps_left d w) as Hless.
      specialize (IH _ _ _ Hzero ltac:(lia)).
      replace (resume_twice d w)
        with (resume_twice (resume d w).1 (resume d w).2); [done|].
      pose proof (resume_twice_settled d w) as Hfix.
      unfold resume_twice in *.
      destruct (resume d w) as [d1 w1]. simpl.
      destruct (resume d1 w1) as [d2 w2]. simpl in *. done.
    + rewrite Hother. by apply IH.
Qed.

(** X17: a batch of one is the download itself: once its promise has been
    woken twice, whatever else is woken, the returned promise is fulfilled
    with the folder if the awaited call returns, and rejected with its error
    if it throws, and the world is the one the awaited call leaves. *)
Theorem downloadRestApis_of_one
    (api : RestApi.t) (destinationFolder : option string)
    (schedule : list nat) (w : World) :
  (2 <= count_occ Nat.eq_dec schedule 0)%nat ->
  downloadRestApis [api] destinationFolder schedule w
  = match downloadRestApi api destinationFolder w with
    | (Ok _, w') =>
        (Fulfilled (default DEFAULT_DOWNLOAD_FOLDER destinationFolder), w')
    | (Throw e, w') => (Rejected e, w')
    end.
Proof.
  intros Hwoken.
  replace (downloadRestApi api destinationFolder w)
    with (downloadRestApi api
            (Some (default DEFAULT_DOWNLOAD_FOLDER destinationFolder)) w)
    by by destruct destinationFolder.
  unfold downloadRestApis, downloadRestApis_run. simpl.
  pose proof (downloadRestApi_alone api
                (default DEFAULT_DOWNLOAD_FOLDER destinationFolder) w)
    as Halone.
  destruct (downloadRestApi_call api _ w) as [d0 w0].
  set (r0 := {| promises := [d0]; rejection := first_rejection [d0];
                world := w0 |}).
  assert (alone r0 d0 w0) as Hr0.
  { repeat split. }
  pose proof (steps_left_bound d0) as Hbound.
  destruct (run_alone schedule r0 d0 w0 Hr0 ltac:(lia)) as (Hp & Hw & Hrej).
  unfold resume_twice in *.
  destruct (resume d0 w0) as [d1 w1]. destruct (resume d1 w1) as [d2 w2].
  destruct (downloadRestApi api _ w) as [result w']. simplify_eq.
  unfold all_then. simpl in *. rewrite Hrej, Hp, Hw.
  by destruct result.
Qed.







End AggregateMore.

Lemma downloadRestApis_two_skips :
  exists w',
    downloadRestApis (platform := Sample.plain_paths)
      [Sample.unlisted_api; Sample.unlisted_api] None [0; 5; 1]%nat
      Sample.cdn
    = (Fulfilled "download", w') /\
    requests w' = requests Sample.cdn /\ files w' = files Sample.cdn /\
    dirs w' = dirs Sample.cdn.
Proof.
  apply (downloadRestApis_skips_only (platform := Sample.plain_paths)
           [Sample.unlisted_api; Sample.unlisted_api] None [0; 5; 1]%nat
           Sample.cdn).
  by repeat constructor.
Defined.

Lemma downloadRestApis_requests_of_four :
  requests (downloadRestApis (platform := Sample.plain_paths)
              [Sample.shop_api; Sample.unlisted_api; Sample.bare_api;
               Sample.cart_api] None [3; 0; 3]%nat Sample.cdn).2
  = [download_request (fileInfo_of Sample.fat_new);
     download_request (fileInfo_of Sample.fat_old)].
Proof.
  apply (downloadRestApis_requests (platform := Sample.plain_paths)
           [Sample.shop_api; Sample.unlisted_api; Sample.bare_api;
            Sample.cart_api] None [3; 0; 3]%nat Sample.cdn).
  reflexivity.
Defined.

Lemma downloadRestApis_blocked :
  let run := downloadRestApis (platform := Sample.plain_paths)
               [Sample.unlisted_api; Sample.shop_api] None [1; 1]%nat
               Sample.cdn_blocked in
  requests run.2 = requests Sample.cdn_blocked /\
  files run.2 = files Sample.cdn_blocked /\
  dirs run.2 = dirs Sample.cdn_blocked /\
  (Exists (fun api => has_id api = true)
          [Sample.unlisted_api; Sample.shop_api] ->
   run.1 = Rejected (SystemError "EEXIST" "download")).
Proof.
  apply (downloadRestApis_blocked_folder (platform := Sample.plain_paths)
           [Sample.unlisted_api; Sample.shop_api] None [1; 1]%nat
           Sample.cdn_blocked).
  reflexivity.
Defined.

Lemma downloadRestApis_bare_in_batch :
  exists e,
    (downloadRestApis (platform := Sample.plain_paths)
       [Sample.shop_api; Sample.bare_api] None [] Sample.cdn).1
    = Rejected e /\
    (downloadRestApis (platform := Sample.plain_paths)
       [Sample.shop_api; Sample.bare_api] None [0; 0]%nat Sample.cdn).1
    = Rejected e.
Proof.
  apply (downloadRestApis_rejected_from_the_start
           (platform := Sample.plain_paths)
           [Sample.shop_api; Sample.bare_api] None [0; 0]%nat Sample.cdn
           Sample.bare_api).
  - apply elem_of_cons. right. by left.
  - reflexivity.
  - reflexivity.
Defined.

Lemma downloadRestApis_of_shop :
  downloadRestApis (platform := Sample.plain_paths) [Sample.shop_api]
                   (Some "out") [0; 3; 0]%nat Sample.cdn
  = (Fulfilled "out",
     (downloadRestApi (platform := Sample.plain_paths) Sample.shop_api
                      (Some "out") Sample.cdn).2).
Proof.
  rewrite (downloadRestApis_of_one (platform := Sample.plain_paths)
             Sample.shop_api (Some "out") [0; 3; 0]%nat Sample.cdn)
    by (vm_compute; lia).
  vm_compute. reflexivity.
Defined.


(** ** The lookups and the file system *)

(** X19: the three lookups only look: awaiting [getAsset],
    [getVersionByDeployment] or [getSpecificApi] (with a version) sends
    exactly one request, for the asset's path and with the bearer token, and
    changes no file and no directory, whatever the outcome; a request that
    fails is passed on by [getAsset] as it is, with no warning logged. *)
Theorem lookups_only_look
    (accessToken groupId assetId : string) (restApi : RestApi.t)
    (deployment : RegExp) (version : value) (w : World) :
  only_sent (asset_request accessToken assetId) w
            (getAsset accessToken assetId w).2 /\
  only_sent (asset_request accessToken
               (to_string (RestApi.groupId restApi) ++ "/"
                ++ to_string (RestApi.assetId restApi))) w
            (getVersionByDeployment accessToken restApi deployment w).2 /\
  (truthy version = true ->
   only_sent (asset_request accessToken
                (groupId ++ "/" ++ assetId ++ "/" ++ to_string version)) w
             (await (getSpecificApi accessToken groupId assetId version) w).2)
  /\
  (forall e,
     answer w (asset_request accessToken assetId) = Throw e ->
     getAsset accessToken assetId w
     = (Throw e, sent (asset_request accessToken assetId) w)).
Proof.
  assert (forall path,
            only_sent (asset_request accessToken path) w
                      (getAsset accessToken path w).2) as Hget.
  { intros path. unfold only_sent, getAsset, bind, fetch.
    destruct (net w _ _) as [res|e]; [|done]. by destruct (res_ok res). }
  split; [apply Hget|]. split; [|split].
  - specialize (Hget (to_string (RestApi.groupId restApi) ++ "/"
                      ++ to_string (RestApi.assetId restApi))).
    unfold getVersionByDeployment, bind.
    destruct (getAsset _ _ w) as [[asset|e] w1]; [|done].
    by destruct (truthy asset).
  - intros Hv.
    specialize (Hget (groupId ++ "/" ++ assetId ++ "/" ++ to_string version)).
    unfold getSpecificApi. rewrite Hv. unfold await, bind at 1.
    destruct (getAsset _ _ w) as [[api|e] w1]; [|done].
    destruct (truthy api); [|done]. unfold bind, lift, ret.
    by destruct (convertResponseToRestApi api).
  - intros e Hnet. unfold answer, asset_request, manual_lookup_url in Hnet.
    unfold getAsset, bind, fetch. by rewrite Hnet.
Qed.

Lemma getAsset_offline :
  getAsset "token" "org/shop" Sample.offline
  = (Throw (FetchError
              "request to https://anypoint.mulesoft.com/exchange/api/v2/assets/org/shop failed"),
     sent (asset_request "token" "org/shop") Sample.offline).
Proof.
  apply (lookups_only_look "token" "org" "org/shop" Sample.shop_api
           Sample.production (VStr "1.0.0") Sample.offline).
  reflexivity.
Defined.
